(** * tools/build.py: the native build driver of llamadart-native

    A shallow embedding of the build driver: Python's [str] methods used by
    the script, the backend cache-variable tables, the ZenDNN patch pair, the
    configure/build driver, the runtime-library collector and the linux and
    windows entry points, followed by the properties proved about them. *)

From Stdlib Require Import ZArith String Ascii List Lia Bool DecimalString.
From stdpp Require Import base option list gmap strings sorting.

Local Open Scope string_scope.
Local Open Scope list_scope.

(** ** Python [str] methods, on byte strings *)

Module Str.

(** [s.startswith(p)] *)
Fixpoint startswith (s p : string) {struct p} : bool :=
  match p, s with
  | EmptyString, _ => true
  | String _ _, EmptyString => false
  | String a p', String b s' => Ascii.eqb a b && startswith s' p'
  end.

(** [sub in s] *)
Fixpoint contains (s sub : string) : bool :=
  startswith s sub ||
  match s with
  | EmptyString => false
  | String _ s' => contains s' sub
  end.

(** [s[n:]] *)
Fixpoint drop (n : nat) (s : string) : string :=
  match n, s with
  | O, _ => s
  | S _, EmptyString => EmptyString
  | S k, String _ s' => drop k s'
  end.

(** [s.endswith(p)] *)
Definition endswith (s p : string) : bool :=
  String.eqb (drop (String.length s - String.length p) s) p
  && (String.length p <=? String.length s)%nat.

(** [s.lower()], on ASCII letters. *)
Definition lower_ascii (c : ascii) : ascii :=
  let n := nat_of_ascii c in
  if ((65 <=? n) && (n <=? 90))%nat then ascii_of_nat (n + 32) else c.

Fixpoint lower (s : string) : string :=
  match s with
  | EmptyString => EmptyString
  | String c s' => String (lower_ascii c) (lower s')
  end.

(** The left-to-right scan of [s.replace(old, new)] for a non-empty [old]:
    [skip] counts the characters of a matched occurrence still to be
    passed over. *)
Fixpoint replace_from (old new : string) (skip : nat) (s : string) : string :=
  match s with
  | EmptyString => EmptyString
  | String c s' =>
      match skip with
      | S k => replace_from old new k s'
      | O =>
          if startswith s old
          then new +:+ replace_from old new (String.length old - 1) s'
          else String c (replace_from old new 0 s')
      end
  end.

(** With an empty [old], Python puts [new] before every character and at
    the end. *)
Fixpoint intersperse (new s : string) : string :=
  match s with
  | EmptyString => new
  | String c s' => new +:+ String c (intersperse new s')
  end.

(** [s.replace(old, new)] *)
Definition replace (s old new : string) : string :=
  match old with
  | EmptyString => intersperse new s
  | String _ _ => replace_from old new 0 s
  end.

(** [old] has no proper non-empty border: no proper non-empty suffix of it
    is also a prefix of it. *)
Definition unbordered (p : string) : bool :=
  forallb (fun k => negb (startswith p (drop k p)))
          (seq 1 (String.length p - 1)).

(** From offset [k] on, no suffix of [u] is a prefix of [a] or has [a] as a
    prefix: an occurrence of [a] cannot begin inside [u] at or after [k]. *)
Definition incomparable_from (k : nat) (u a : string) : bool :=
  forallb (fun d => negb (startswith (drop d u) a) && negb (startswith a (drop d u)))
          (seq k (String.length u - k)).

End Str.

(** ** Paths, the file system, errors and effects *)

(** A [Path] is the list of its components below the root; every path of
    the script is absolute ([REPO_ROOT] is resolved). *)
Abbreviation path := (list string).

(** [path.name] and [path.parent] *)
Definition name (p : path) : string := List.last p "".
Definition parent (p : path) : path := removelast p.

(** [str(path)] *)
Definition path_str (p : path) : string :=
  match p with
  | [] => "/"
  | _ => String.concat "/" ("" :: p)
  end.

(** Paths compare as the lists of their parts: the first differing
    component decides, a proper prefix comes first. *)
Fixpoint path_leb (p q : path) : bool :=
  match p, q with
  | [], _ => true
  | _ :: _, [] => false
  | a :: p', b :: q' =>
      if decide (a = b) then path_leb p' q' else bool_decide (String.le a b)
  end.
Definition path_le (p q : path) : Prop := path_leb p q = true.

#[global] Instance path_le_dec : RelDecision path_le.
Proof. intros p q. unfold path_le. apply _. Defined.

(** A file-system entry: a regular file with its content, or a directory. *)
Inductive node :=
| File (data : string)
| Dir.

Abbreviation fsys := (gmap path node).

Definition is_file (fs : fsys) (p : path) : bool :=
  match fs !! p with Some (File _) => true | _ => false end.
Definition is_dir (fs : fsys) (p : path) : bool :=
  match fs !! p with Some Dir => true | _ => false end.
Definition exists_ (fs : fsys) (p : path) : bool :=
  match fs !! p with Some _ => true | None => false end.

(** [p.rglob("*")]: everything strictly below the directory [p]. *)
Definition rglob (fs : fsys) (p : path) : list path :=
  if is_dir fs p
  then filter (fun q => p `prefix_of` q /\ q <> p) (map_to_list fs).*1
  else [].

(** The names of [p] from the topmost directory down to [p] itself. *)
Definition ancestors (p : path) : list path :=
  (fun n => take n p) <$> seq 1 (length p).

(** The exceptions the script raises or lets through. *)
Inductive exn :=
| SystemExit (msg : string)
| CalledProcessError (returncode : Z)
| OSError (p : path)
| ValueError (p : path)
| KeyError (key : string).

Inductive result (A : Type) :=
| Ok (a : A)
| Raise (e : exn).
Arguments Ok {A} a.
Arguments Raise {A} e.

(** The side effects of the script, in the order they happen. *)
Inductive event :=
| Run (cmd : list string) (env : gmap string string)
| WriteText (p : path) (data : string)
| Rmtree (p : path)
| Mkdir (p : path)
| Copy2 (src dst : path).

Definition is_run (e : event) : bool :=
  match e with Run _ _ => true | _ => false end.
Definition is_write (e : event) : bool :=
  match e with WriteText _ _ => true | _ => false end.

Record world := World {
  w_fs : fsys;
  w_log : list event;
}.

(** Computations: they read and change the world, and return or raise; the
    world reached when an exception is raised is kept. *)
Definition M (A : Type) : Type := world -> result A * world.

#[global] Instance M_ret : MRet M := fun A a w => (Ok a, w).
#[global] Instance M_bind : MBind M := fun A B f m w =>
  match m w with
  | (Ok a, w') => f a w'
  | (Raise e, w') => (Raise e, w')
  end.

Definition raise {A} (e : exn) : M A := fun w => (Raise e, w).
Definition lift {A} (r : result A) : M A := fun w => (r, w).
Definition get_fs : M fsys := fun w => (Ok (w_fs w), w).
Definition put_fs (fs : fsys) : M unit := fun w => (Ok tt, World fs (w_log w)).
Definition emit (e : event) : M unit :=
  fun w => (Ok tt, World (w_fs w) (w_log w ++ [e])).

(** [try: body finally: fin] *)
Definition try_finally {A} (body : M A) (fin : M unit) : M A := fun w =>
  let '(r, w1) := body w in
  match fin w1 with
  | (Ok _, w2) => (r, w2)
  | (Raise e, w2) => (Raise e, w2)
  end.

(** [for x in l: f(x)] *)
Fixpoint for_each {A} (l : list A) (f : A -> M unit) : M unit :=
  match l with
  | [] => mret tt
  | x :: l' => f x;; for_each l' f
  end.

(** [def fail(message): raise SystemExit(message)] *)
Definition fail {A} (message : string) : M A := raise (SystemExit message).

(** *** File-system calls *)

Definition read_text (p : path) : M string :=
  fs ← get_fs;
  match fs !! p with
  | Some (File data) => mret data
  | _ => raise (OSError p)
  end.

Definition write_text (p : path) (data : string) : M unit :=
  fs ← get_fs;
  match fs !! p with
  | Some Dir => raise (OSError p)
  | Some (File _) => put_fs (<[p := File data]> fs);; emit (WriteText p data)
  | None =>
      if is_dir fs (parent p)
      then put_fs (<[p := File data]> fs);; emit (WriteText p data)
      else raise (OSError p)
  end.

(** [shutil.rmtree(p)] *)
Definition rmtree (p : path) : M unit :=
  fs ← get_fs;
  if is_dir fs p
  then put_fs (filter (fun kv => ~ p `prefix_of` kv.1) fs);; emit (Rmtree p)
  else raise (OSError p).

(** [p.mkdir(parents=True, exist_ok=True)] *)
Definition mkdir_step (acc : option fsys) (q : path) : option fsys :=
  fs ← acc;
  match fs !! q with
  | Some (File _) => None
  | Some Dir => Some fs
  | None => Some (<[q := Dir]> fs)
  end.

Definition mkdir_parents (p : path) : M unit :=
  fs ← get_fs;
  match foldl mkdir_step (Some fs) (ancestors p) with
  | Some fs' => put_fs fs';; emit (Mkdir p)
  | None => raise (OSError p)
  end.

(** [shutil.copy2(src, dst)] *)
Definition copy2 (src dst : path) : M unit :=
  fs ← get_fs;
  match fs !! src with
  | Some (File data) =>
      let target := if is_dir fs dst then dst ++ [name src] else dst in
      if decide (target = src) then raise (OSError src)
      else if is_dir fs target then raise (OSError target)
      else if is_file fs target || is_dir fs (parent target)
      then put_fs (<[target := File data]> fs);; emit (Copy2 src dst)
      else raise (OSError target)
  | _ => raise (OSError src)
  end.

(** [p.relative_to(base)] raises unless [p] lies in [base]. *)
Definition relative_to (p base : path) : M path :=
  if decide (base `prefix_of` p) then mret (drop (length base) p)
  else raise (ValueError p).

(** ** Backend cache variables *)

(** A Python [dict] of strings: the bindings in insertion order. *)
Abbreviation dict := (list (string * string)).

(** [d[k] = v]: an existing key keeps its place. *)
Fixpoint dict_set (d : dict) (k v : string) : dict :=
  match d with
  | [] => [(k, v)]
  | (k', v') :: d' =>
      if String.eqb k' k then (k', v) :: d' else (k', v') :: dict_set d' k v
  end.

(** [d.get(k)] *)
Fixpoint dict_get (d : dict) (k : string) : option string :=
  match d with
  | [] => None
  | (k', v') :: d' => if String.eqb k' k then Some v' else dict_get d' k
  end.

(** [d[k]] *)
Definition getitem (d : dict) (k : string) : result string :=
  match dict_get d k with
  | Some v => Ok v
  | None => Raise (KeyError k)
  end.

Definition keys (d : dict) : list string := d.*1.

(** [x in (a, b, ...)] *)
Definition in_tuple (x : string) (t : list string) : bool :=
  existsb (String.eqb x) t.

Definition ANDROID_BACKENDS : list string := ["full"; "vulkan"; "opencl"].
Definition LINUX_BACKENDS : list string := ["full"; "vulkan"; "cuda"; "blas"].
Definition WINDOWS_BACKENDS : list string := ["full"; "vulkan"; "cuda"; "blas"].

Definition linux_backend_cache_vars (arch backend : string) : result dict :=
  if String.eqb backend "cuda" && negb (String.eqb arch "x64")
  then Raise (SystemExit "Linux cuda backend build is only available for x64")
  else
    let cache_vars : dict :=
      [ ("GGML_VULKAN", "OFF");
        ("GGML_OPENCL", "OFF");
        ("GGML_CUDA", "OFF");
        ("GGML_BLAS", "OFF");
        ("GGML_ZENDNN", "OFF");
        ("GGML_CPU_KLEIDIAI", if String.eqb arch "arm64" then "ON" else "OFF") ] in
    let cache_vars :=
      if in_tuple backend ["full"; "vulkan"]
      then dict_set cache_vars "GGML_VULKAN" "ON" else cache_vars in
    let cache_vars :=
      if in_tuple backend ["full"; "cuda"]
      then dict_set cache_vars "GGML_CUDA" "ON" else cache_vars in
    let cache_vars :=
      if in_tuple backend ["full"; "blas"]
      then dict_set (dict_set cache_vars "GGML_BLAS" "ON")
                    "GGML_BLAS_VENDOR" "OpenBLAS"
      else cache_vars in
    Ok cache_vars.

Definition android_backend_cache_vars (abi backend : string) : result dict :=
  let cache_vars : dict :=
    [ ("GGML_VULKAN", "OFF");
      ("GGML_OPENCL", "OFF");
      ("GGML_CPU_KLEIDIAI", if String.eqb abi "arm64-v8a" then "ON" else "OFF") ] in
  let cache_vars :=
    if in_tuple backend ["full"; "vulkan"]
    then dict_set cache_vars "GGML_VULKAN" "ON" else cache_vars in
  let cache_vars :=
    if in_tuple backend ["full"; "opencl"]
    then dict_set cache_vars "GGML_OPENCL" "ON" else cache_vars in
  Ok cache_vars.

Definition windows_backend_cache_vars (arch backend : string) : result dict :=
  if String.eqb backend "cuda" && negb (String.eqb arch "x64")
  then Raise (SystemExit "Windows cuda backend build is only available for x64")
  else
    let cache_vars : dict :=
      [ ("GGML_VULKAN", "OFF");
        ("GGML_OPENCL", "OFF");
        ("GGML_CUDA", "OFF");
        ("GGML_BLAS", "OFF");
        ("GGML_CPU_KLEIDIAI", if String.eqb arch "arm64" then "ON" else "OFF") ] in
    let cache_vars :=
      if in_tuple backend ["full"; "vulkan"]
      then dict_set cache_vars "GGML_VULKAN" "ON" else cache_vars in
    let cache_vars :=
      if in_tuple backend ["full"; "cuda"]
      then dict_set cache_vars "GGML_CUDA" "ON" else cache_vars in
    let cache_vars :=
      if in_tuple backend ["full"; "blas"]
      then dict_set (dict_set cache_vars "GGML_BLAS" "ON")
                    "GGML_BLAS_VENDOR" "OpenBLAS"
      else cache_vars in
    Ok cache_vars.

(** [[f"-D{key}={value}" for key, value in cache_vars.items()]] *)
Definition cmake_cache_args (cache_vars : dict) : list string :=
  (fun kv => "-D" +:+ kv.1 +:+ "=" +:+ kv.2) <$> cache_vars.

(** ** The host *)

(** What the script reads from the machine it runs on, and the pieces of
    toolchain discovery the properties below do not depend on. *)
Record host := Host {
  (** [platform.system()] and [platform.machine()] *)
  platform_system : string;
  platform_machine : string;
  (** [shutil.which] *)
  which : string -> option string;
  (** [os.environ] *)
  environ : gmap string string;
  REPO_ROOT : path;
  (** The build directory the presets file gives for a preset, or the
      failure to read that file. *)
  resolve_build_dir_for_preset : string -> result path;
  (** The external build tool: its exit code and what it leaves on disk. *)
  tool : list string -> gmap string string -> fsys -> Z * fsys;
  detect_vcpkg_root : option path;
  infer_vulkan_sdk : option string -> option path;
  find_file_with_suffix : fsys -> path -> string -> option path;
}.

(** Truth value of an optional string: [None] and [""] are false. *)
Definition truthy (o : option string) : bool :=
  match o with
  | Some (String _ _) => true
  | _ => false
  end.

(** [str(n)] for an [int] *)
Definition str_of_int (n : Z) : string := NilZero.string_of_int (Z.to_int n).

Definition when (b : bool) (m : M unit) : M unit := if b then m else mret tt.

Record linux_args := LinuxArgs {
  la_arch : option string;
  la_backend : string;
  la_clean : bool;
  la_jobs : option Z;
}.

Record windows_args := WindowsArgs {
  wa_arch : string;
  wa_backend : string;
  wa_vulkan_sdk : option string;
  wa_clean : bool;
  wa_jobs : option Z;
}.

Definition WINDOWS_VCPKG_TRIPLETS : dict :=
  [("x64", "x64-windows"); ("arm64", "arm64-windows")].

(** ** The build driver *)

Section Driver.
Variable h : host.

Definition THIRD_PARTY_DIR : path := REPO_ROOT h ++ ["third_party"].
Definition BIN_DIR : path := REPO_ROOT h ++ ["bin"].

(** The environment [run] hands to the tool: [env] or else [os.environ],
    with [CCACHE_DIR] set when it is not already. *)
Definition effective_env (env : option (gmap string string)) : gmap string string :=
  let base := default (environ h) env in
  match base !! "CCACHE_DIR" with
  | Some _ => base
  | None => <["CCACHE_DIR" := path_str (REPO_ROOT h ++ [".ccache"])]> base
  end.

(** [run(cmd, env=env)]: a non-zero exit raises [CalledProcessError]. *)
Definition run (cmd : list string) (env : option (gmap string string)) : M unit :=
  fun w =>
    let '(returncode, fs') := tool h cmd (effective_env env) (w_fs w) in
    let w' := World fs' (w_log w ++ [Run cmd (effective_env env)]) in
    if (returncode =? 0)%Z then (Ok tt, w')
    else (Raise (CalledProcessError returncode), w').

Definition ensure_submodule (p : path) (error : string) : M unit :=
  fs ← get_fs;
  if is_file fs p then mret tt else fail error.

Definition zendnn_cmake_file : path :=
  THIRD_PARTY_DIR ++ ["llama.cpp"; "ggml"; "src"; "ggml-zendnn"; "CMakeLists.txt"].
Definition zendnn_old : string :=
  "INSTALL_COMMAND ${CMAKE_COMMAND} --build ${ZENDNN_BUILD_DIR} --target install".
Definition zendnn_new : string :=
  "INSTALL_COMMAND ${CMAKE_COMMAND} --build ${ZENDNN_BUILD_DIR} --target zendnnl".

Definition patch_llama_zendnn_install_target : M bool :=
  let cmake_file := zendnn_cmake_file in
  ensure_submodule cmake_file
    "Missing ggml-zendnn CMake file in llama.cpp submodule. Run: git submodule update --init --recursive";;
  let old := zendnn_old in
  let new := zendnn_new in
  text ← read_text cmake_file;
  if Str.contains text new then mret false
  else if negb (Str.contains text old)
  then fail ("Could not apply ZenDNN install target patch: expected install command not found in "
             +:+ path_str cmake_file)
  else write_text cmake_file (Str.replace text old new);; mret true.

Definition restore_llama_zendnn_install_target : M unit :=
  let cmake_file := zendnn_cmake_file in
  let old := zendnn_old in
  let new := zendnn_new in
  fs ← get_fs;
  if negb (is_file fs cmake_file) then mret tt
  else
    text ← read_text cmake_file;
    if negb (Str.contains text new) then mret tt
    else write_text cmake_file (Str.replace text new old).

Definition clean_build_dir (preset : string) (clean : bool) : M path :=
  build_dir ← lift (resolve_build_dir_for_preset h preset);
  fs ← get_fs;
  when (clean && exists_ fs build_dir) (rmtree build_dir);;
  mret build_dir.

Definition configure_and_build (preset : string) (jobs : option Z)
    (extra_cmake_args : option (list string))
    (env : option (gmap string string)) : M path :=
  let configure_cmd :=
    ["cmake"; "--preset"; preset] ++ default [] extra_cmake_args in
  run configure_cmd env;;
  let build_cmd :=
    ["cmake"; "--build"; "--preset"; preset] ++
    match jobs with
    | Some j => if (0 <? j)%Z then ["--parallel"; str_of_int j] else []
    | None => []
    end in
  run build_cmd env;;
  lift (resolve_build_dir_for_preset h preset).

Definition detect_linux_arch : M string :=
  let machine := Str.lower (platform_machine h) in
  if in_tuple machine ["x86_64"; "amd64"; "x64"] then mret "x64"
  else if in_tuple machine ["aarch64"; "arm64"] then mret "arm64"
  else fail ("Unsupported host architecture '" +:+ machine +:+ "' for Linux builds").

Definition is_runtime_library (fs : fsys) (p : path) : bool :=
  let name := Str.lower (name p) in
  if negb (is_file fs p) then false
  else if negb (Str.endswith name ".dll" || Str.endswith name ".dylib"
                || Str.endswith name ".so")
  then false
  else
    let prefixes :=
      ["llamadart"; "llama"; "ggml"; "mtmd";
       "libllamadart"; "libllama"; "libggml"; "libmtmd"] in
    existsb (Str.startswith name) prefixes.

(** The [selected] dictionary after the loop over the sorted tree. *)
Definition select_libraries (fs : fsys) (paths : list path) : gmap string path :=
  foldl (fun selected p =>
           if is_runtime_library fs p then <[name p := p]> selected
           else selected)
        ∅ paths.

Definition collect_runtime_libraries (build_dir : path) : M (list path) :=
  fs ← get_fs;
  let selected := select_libraries fs (merge_sort path_le (rglob fs build_dir)) in
  if decide (selected = ∅)
  then fail ("No runtime libraries found under " +:+ path_str build_dir)
  else mret (omap (fun k => selected !! k)
                  (merge_sort String.le (map_to_list selected).*1)).

Definition reset_dir (p : path) : M unit :=
  fs ← get_fs;
  when (exists_ fs p) (rmtree p);;
  mkdir_parents p.

Definition copy_output (src dst : path) : M unit :=
  mkdir_parents (parent dst);;
  copy2 src dst;;
  relative_to dst (REPO_ROOT h);;
  mret tt.

Definition copy_runtime_libraries (build_dir out_dir : path) : M unit :=
  libs ← collect_runtime_libraries build_dir;
  reset_dir out_dir;;
  for_each libs (fun src => copy_output src (out_dir ++ [name src]));;
  relative_to out_dir (REPO_ROOT h);;
  mret tt.

(** [args.arch or detect_linux_arch()] *)
Definition linux_arch (args : linux_args) : M string :=
  if truthy (la_arch args) then mret (default "" (la_arch args))
  else detect_linux_arch.

(** The [try ... finally] statement that ends [build_linux]. *)
Definition build_linux_guarded (zendnn_patch_applied : bool)
    (preset arch : string) (jobs : option Z) (extra_args : list string) : M unit :=
  try_finally
    (build_dir ← configure_and_build preset jobs (Some extra_args) None;
     copy_runtime_libraries build_dir (BIN_DIR ++ ["linux"; arch]))
    (when zendnn_patch_applied restore_llama_zendnn_install_target).

Definition build_linux (args : linux_args) : M unit :=
  when (negb (String.eqb (Str.lower (platform_system h)) "linux"))
       (fail "Linux builds must be run on Linux hosts");;
  ensure_submodule (THIRD_PARTY_DIR ++ ["llama.cpp"; "CMakeLists.txt"])
    "Missing submodule: third_party/llama.cpp. Run: git submodule update --init --recursive";;
  arch ← linux_arch args;
  let backend := la_backend args in
  let preset := "linux-" +:+ arch +:+ "-full" in
  clean_build_dir preset (la_clean args);;
  cache_vars ← lift (linux_backend_cache_vars arch backend);
  let extra_args := cmake_cache_args cache_vars in
  host_arch ← detect_linux_arch;
  extra_args ←
    (if String.eqb arch "arm64" && negb (String.eqb host_arch "arm64")
     then
       match which h "aarch64-linux-gnu-gcc", which h "aarch64-linux-gnu-g++" with
       | Some (String _ _ as cc), Some (String _ _ as cxx) =>
           mret (extra_args ++
                 ["-DCMAKE_C_COMPILER=" +:+ cc;
                  "-DCMAKE_CXX_COMPILER=" +:+ cxx;
                  "-DCMAKE_SYSTEM_NAME=Linux";
                  "-DCMAKE_SYSTEM_PROCESSOR=aarch64"])
       | _, _ =>
           fail "Cross compiler not found. Install aarch64-linux-gnu-gcc and aarch64-linux-gnu-g++"
       end
     else mret extra_args);
  cuda ← lift (getitem cache_vars "GGML_CUDA");
  when (String.eqb cuda "ON"
        && negb (truthy (which h "nvcc") || truthy (which h "nvcc.exe")))
       (fail "Linux CUDA backend build requires CUDA (nvcc not found in PATH)");;
  zendnn_patch_applied ←
    (if String.eqb arch "x64"
     then
       zendnn ← lift (getitem cache_vars "GGML_ZENDNN");
       if String.eqb zendnn "ON" then patch_llama_zendnn_install_target
       else mret false
     else mret false);
  build_linux_guarded zendnn_patch_applied preset arch (la_jobs args) extra_args.

Definition build_windows (args : windows_args) : M unit :=
  when (negb (String.eqb (Str.lower (platform_system h)) "windows"))
       (fail "Windows builds must be run on Windows hosts");;
  ensure_submodule (THIRD_PARTY_DIR ++ ["llama.cpp"; "CMakeLists.txt"])
    "Missing submodule: third_party/llama.cpp. Run: git submodule update --init --recursive";;
  let arch := wa_arch args in
  let backend := wa_backend args in
  cache_vars ← lift (windows_backend_cache_vars arch backend);
  cuda ← lift (getitem cache_vars "GGML_CUDA");
  when (String.eqb cuda "ON"
        && negb (truthy (which h "nvcc") || truthy (which h "nvcc.exe")))
       (fail "Windows CUDA backend build requires CUDA (nvcc not found in PATH)");;
  let preset := "windows-" +:+ arch +:+ "-full" in
  clean_build_dir preset (wa_clean args);;
  let extra_args := cmake_cache_args cache_vars in
  fs ← get_fs;
  extra_args ←
    match detect_vcpkg_root h with
    | Some vcpkg_root =>
        blas ← lift (getitem cache_vars "GGML_BLAS");
        if String.eqb blas "ON" then
          let toolchain := vcpkg_root ++ ["scripts"; "buildsystems"; "vcpkg.cmake"] in
          if is_file fs toolchain then
            triplet ← lift (getitem WINDOWS_VCPKG_TRIPLETS arch);
            mret (extra_args ++
                  ["-DCMAKE_TOOLCHAIN_FILE=" +:+ path_str toolchain;
                   "-DVCPKG_TARGET_TRIPLET=" +:+ triplet])
          else mret extra_args
        else mret extra_args
    | None => mret extra_args
    end;
  vulkan ← lift (getitem cache_vars "GGML_VULKAN");
  let sdk := if String.eqb vulkan "ON"
             then infer_vulkan_sdk h (wa_vulkan_sdk args) else None in
  let extra_args :=
    match sdk with
    | Some sdk =>
        let extra_args :=
          if String.eqb arch "x64" then
            extra_args ++
            ["-DVulkan_ROOT=" +:+ path_str sdk;
             "-DVulkan_INCLUDE_DIR=" +:+ path_str (sdk ++ ["Include"])] ++
            match find_file_with_suffix h fs sdk "vulkan-1.lib" with
            | Some vulkan_lib => ["-DVulkan_LIBRARY=" +:+ path_str vulkan_lib]
            | None => []
            end
          else extra_args in
        extra_args ++
        match find_file_with_suffix h fs sdk "glslc.exe" with
        | Some glslc => ["-DVulkan_GLSLC_EXECUTABLE=" +:+ path_str glslc]
        | None => []
        end
    | None => extra_args
    end in
  build_dir ← configure_and_build preset (wa_jobs args) (Some extra_args) None;
  copy_runtime_libraries build_dir (BIN_DIR ++ ["windows"; arch]).

(** The handler around [main()]. *)
Definition main (func : M unit) : M unit := fun w =>
  match func w with
  | (Raise (CalledProcessError returncode), w') =>
      (Raise (SystemExit ("Command failed with exit code " +:+ str_of_int returncode)), w')
  | r => r
  end.

End Driver.

(** ** Platforms and what their backends stand for *)

Inductive platform := Linux | Android | Windows.

Definition backend_cache_vars (pl : platform) : string -> string -> result dict :=
  match pl with
  | Linux => linux_backend_cache_vars
  | Android => android_backend_cache_vars
  | Windows => windows_backend_cache_vars
  end.

(** The architectures and backends each platform is called with. *)
Definition architectures (pl : platform) : list string :=
  match pl with
  | Linux | Windows => ["x64"; "arm64"]
  | Android => ["arm64-v8a"; "x86_64"]
  end.

Definition backends (pl : platform) : list string :=
  match pl with
  | Linux => LINUX_BACKENDS
  | Android => ANDROID_BACKENDS
  | Windows => WINDOWS_BACKENDS
  end.

Definition supported (pl : platform) (arch backend : string) : Prop :=
  arch ∈ architectures pl /\ backend ∈ backends pl /\
  ~ (backend = "cuda" /\ arch <> "x64").

(** The ON/OFF switches of each platform. *)
Definition capability_keys (pl : platform) : list string :=
  match pl with
  | Linux =>
      ["GGML_VULKAN"; "GGML_OPENCL"; "GGML_CUDA"; "GGML_BLAS"; "GGML_ZENDNN";
       "GGML_CPU_KLEIDIAI"]
  | Android => ["GGML_VULKAN"; "GGML_OPENCL"; "GGML_CPU_KLEIDIAI"]
  | Windows =>
      ["GGML_VULKAN"; "GGML_OPENCL"; "GGML_CUDA"; "GGML_BLAS"; "GGML_CPU_KLEIDIAI"]
  end.

(** The capabilities a backend name stands for: its own, and for [full] all
    the backends of the platform. *)
Definition backend_implies (pl : platform) (backend key : string) : bool :=
  match pl with
  | Android =>
      String.eqb key "GGML_VULKAN" && in_tuple backend ["full"; "vulkan"]
      || String.eqb key "GGML_OPENCL" && in_tuple backend ["full"; "opencl"]
  | Linux | Windows =>
      String.eqb key "GGML_VULKAN" && in_tuple backend ["full"; "vulkan"]
      || String.eqb key "GGML_CUDA" && in_tuple backend ["full"; "cuda"]
      || String.eqb key "GGML_BLAS" && in_tuple backend ["full"; "blas"]
  end.

Definition on_off (b : bool) : string := if b then "ON" else "OFF".

(** The CPU-kernel switch follows the architecture alone. *)
Definition is_arm64 (pl : platform) (arch : string) : bool :=
  match pl with
  | Android => String.eqb arch "arm64-v8a"
  | Linux | Windows => String.eqb arch "arm64"
  end.

(** ** The effect log *)

(** The commands handed to the external tool, in order. *)
Definition commands (log : list event) : list (list string) :=
  omap (fun e => match e with Run cmd _ => Some cmd | _ => None end) log.

(** [m] only appends to the log, and every event it appends satisfies [P]. *)
Definition emits (P : event -> Prop) {A} (m : M A) : Prop :=
  forall w, exists delta, w_log (m w).2 = w_log w ++ delta /\ Forall P delta.

Definition not_run (e : event) : Prop := is_run e = false.
Definition not_write (e : event) : Prop := is_write e = false.
Definition any_event (e : event) : Prop := True.

(** Events that only touch directories and copies of build outputs. *)
Definition fs_event (e : event) : Prop :=
  match e with
  | Rmtree _ | Mkdir _ | Copy2 _ _ => True
  | _ => False
  end.

Definition run_event (e : event) : Prop := is_run e = true.
Definition write_event (e : event) : Prop := is_write e = true.

(** [m] appends to the log, [e] first. *)
Definition starts_with {A} (e : event) (m : M A) : Prop :=
  forall w, exists delta, w_log (m w).2 = w_log w ++ e :: delta.

(** ** Sample hosts and trees *)

(** An x86-64 linux host with nothing on the PATH and a build tool that
    succeeds without touching the disk. *)
Definition sample_host : host :=
  {| platform_system := "Linux";
     platform_machine := "x86_64";
     which := fun _ => None;
     environ := ∅;
     REPO_ROOT := ["repo"];
     resolve_build_dir_for_preset := fun preset => Ok ["repo"; "build"; preset];
     tool := fun _ _ fs => (0%Z, fs);
     detect_vcpkg_root := None;
     infer_vulkan_sdk := fun _ => None;
     find_file_with_suffix := fun _ _ _ => None |}.

(** The same host on an arm64 machine. *)
Definition sample_arm_host : host :=
  {| platform_system := "Linux";
     platform_machine := "aarch64";
     which := fun _ => None;
     environ := ∅;
     REPO_ROOT := ["repo"];
     resolve_build_dir_for_preset := fun preset => Ok ["repo"; "build"; preset];
     tool := fun _ _ fs => (0%Z, fs);
     detect_vcpkg_root := None;
     infer_vulkan_sdk := fun _ => None;
     find_file_with_suffix := fun _ _ _ => None |}.

(** An x86-64 host with the aarch64 cross compilers installed. *)
Definition sample_cross_host : host :=
  {| platform_system := "Linux";
     platform_machine := "x86_64";
     which := fun prog =>
       if String.eqb prog "aarch64-linux-gnu-gcc" then Some "/usr/bin/aarch64-linux-gnu-gcc"
       else if String.eqb prog "aarch64-linux-gnu-g++" then Some "/usr/bin/aarch64-linux-gnu-g++"
       else None;
     environ := ∅;
     REPO_ROOT := ["repo"];
     resolve_build_dir_for_preset := fun preset => Ok ["repo"; "build"; preset];
     tool := fun _ _ fs => (0%Z, fs);
     detect_vcpkg_root := None;
     infer_vulkan_sdk := fun _ => None;
     find_file_with_suffix := fun _ _ _ => None |}.

(** A host whose build tool fails at every command with exit code 2. *)
Definition sample_failing_host : host :=
  {| platform_system := "Linux";
     platform_machine := "x86_64";
     which := fun _ => None;
     environ := ∅;
     REPO_ROOT := ["repo"];
     resolve_build_dir_for_preset := fun preset => Ok ["repo"; "build"; preset];
     tool := fun _ _ fs => (2%Z, fs);
     detect_vcpkg_root := None;
     infer_vulkan_sdk := fun _ => None;
     find_file_with_suffix := fun _ _ _ => None |}.

Definition sample_build_dir : path := ["repo"; "build"; "linux-x64-full"].
Definition sample_out_dir : path := ["repo"; "bin"; "linux"; "x64"].

(** A build tree with a library, its two versioned aliases, a second copy
    of the library in a subdirectory and a library with another extension,
    next to an output directory that holds a stale file. *)
Definition sample_tree : fsys :=
  list_to_map
    [ (["repo"], Dir);
      (["repo"; "third_party"], Dir);
      (["repo"; "third_party"; "llama.cpp"], Dir);
      (["repo"; "third_party"; "llama.cpp"; "CMakeLists.txt"], File "project(llama)");
      (["repo"; "build"], Dir);
      (["repo"; "build"; "linux-x64-full"], Dir);
      (["repo"; "build"; "linux-x64-full"; "libggml.so"], File "ggml");
      (["repo"; "build"; "linux-x64-full"; "libggml.so.0"], File "ggml-0");
      (["repo"; "build"; "linux-x64-full"; "libggml.so.0.0.0"], File "ggml-0.0.0");
      (["repo"; "build"; "linux-x64-full"; "bin"], Dir);
      (["repo"; "build"; "linux-x64-full"; "bin"; "libggml.so"], File "ggml-bin");
      (["repo"; "build"; "linux-x64-full"; "bin"; "libllama.dylib"], File "llama");
      (["repo"; "build"; "linux-x64-full"; "CMakeCache.txt"], File "cache");
      (["repo"; "bin"], Dir);
      (["repo"; "bin"; "linux"], Dir);
      (["repo"; "bin"; "linux"; "x64"], Dir);
      (["repo"; "bin"; "linux"; "x64"; "libstale.so"], File "stale") ].

(** A tree with the submodule and an empty build directory. *)
Definition sample_bare_tree : fsys :=
  list_to_map
    [ (["repo"], Dir);
      (["repo"; "third_party"], Dir);
      (["repo"; "third_party"; "llama.cpp"], Dir);
      (["repo"; "third_party"; "llama.cpp"; "CMakeLists.txt"], File "project(llama)");
      (["repo"; "build"], Dir);
      (["repo"; "build"; "linux-x64-full"], Dir);
      (["repo"; "build"; "linux-x64-full"; "CMakeCache.txt"], File "cache");
      (["repo"; "bin"], Dir);
      (["repo"; "bin"; "linux"], Dir);
      (["repo"; "bin"; "linux"; "x64"], Dir);
      (["repo"; "bin"; "linux"; "x64"; "libstale.so"], File "stale") ].

(** ** Further parts of the script *)

(** *** Toolchain discovery *)

Module Locator.

(** [s.upper()], on ASCII letters. *)
Definition upper_ascii (c : ascii) : ascii :=
  let n := nat_of_ascii c in
  if ((97 <=? n) && (n <=? 122))%nat then ascii_of_nat (n - 32) else c.

Fixpoint upper (s : string) : string :=
  match s with
  | EmptyString => EmptyString
  | String c s' => String (upper_ascii c) (upper s')
  end.

Definition abi_env_key (abi : string) : string :=
  Str.replace (upper abi) "-" "_".

(** [find_file_with_suffix(root, suffix, contains=contains)], given the
    sequence [walk] that [root.rglob("*")] yields; the order of that
    sequence is the operating system's. *)
Fixpoint find_file_with_suffix (fs : fsys) (walk : list path) (suffix : string)
    (contains : option string) : option path :=
  match walk with
  | [] => None
  | p :: rest =>
      if negb (is_file fs p) then find_file_with_suffix fs rest suffix contains
      else if negb (Str.endswith (path_str p) suffix)
      then find_file_with_suffix fs rest suffix contains
      else if truthy contains && negb (Str.contains (path_str p) (default "" contains))
      then find_file_with_suffix fs rest suffix contains
      else Some p
  end.

(** [p.iterdir()]: the entries directly in [p]. *)
Definition iterdir (fs : fsys) (p : path) : list path :=
  filter (fun q => parent q = p /\ q <> []) (map_to_list fs).*1.

(** [os.environ.get(key)] when it is set and not empty. *)
Definition env_value (environ : gmap string string) (key : string) : option string :=
  match environ !! key with
  | Some (String _ _ as value) => Some value
  | _ => None
  end.

Section Discovery.
(** [os.environ]; [Path(value).expanduser()] and [Path(value).resolve()],
    the parsing being pathlib's; [shutil.which]; and the file system. *)
Variable environ : gmap string string.
Variable Path : string -> path.
Variable resolve : string -> path.
Variable which : string -> option string.
Variable fs : fsys.

(** The loop over the SDK roots of [detect_android_ndk]. *)
Fixpoint ndk_in_sdk_roots (sdk_roots : list path) : option path :=
  match sdk_roots with
  | [] => None
  | root :: rest =>
      let ndk_root := root ++ ["ndk"] in
      if is_dir fs ndk_root then
        match reverse (merge_sort path_le (filter (fun p => is_dir fs p = true)
                                                  (iterdir fs ndk_root))) with
        | newest :: _ => Some newest
        | [] => ndk_in_sdk_roots rest
        end
      else ndk_in_sdk_roots rest
  end.

Definition android_sdk_roots : list path :=
  omap (fun key => Path <$> env_value environ key) ["ANDROID_SDK_ROOT"; "ANDROID_HOME"]
  ++ [Path "~/Library/Android/sdk"; Path "~/Android/Sdk";
      Path "/usr/local/lib/android/sdk"].

Definition detect_android_ndk : option path :=
  let from_env :=
    match env_value environ "ANDROID_NDK_HOME" with
    | Some env_ndk => if exists_ fs (Path env_ndk) then Some (Path env_ndk) else None
    | None => None
    end in
  match from_env with
  | Some p => Some p
  | None =>
      match ndk_in_sdk_roots android_sdk_roots with
      | Some newest => Some newest
      | None =>
          let legacy := Path "/usr/local/lib/android/sdk/ndk-bundle" in
          if is_dir fs legacy then Some legacy else None
      end
  end.

(** The first directory of a list of candidates. *)
Fixpoint first_dir (candidates : list path) : option path :=
  match candidates with
  | [] => None
  | root :: rest => if is_dir fs root then Some root else first_dir rest
  end.

Definition detect_vcpkg_root : option path :=
  match first_dir (omap (fun key => Path <$> env_value environ key)
                        ["VCPKG_ROOT"; "VCPKG_INSTALLATION_ROOT"]) with
  | Some root => Some root
  | None => first_dir [Path "C:/vcpkg"; Path "C:/tools/vcpkg"]
  end.

(** The loop over the two directories above the shader compiler. *)
Fixpoint sdk_above (parents : list path) : option path :=
  match parents with
  | [] => None
  | parent :: rest =>
      let include_dir := parent ++ ["Include"; "vulkan"; "vulkan.h"] in
      let lib_dir := parent ++ ["Lib"] in
      if exists_ fs include_dir || exists_ fs lib_dir then Some parent
      else sdk_above rest
  end.

Definition infer_vulkan_sdk (path_hint : option string) : option path :=
  let from_hint :=
    if truthy path_hint
    then if exists_ fs (Path (default "" path_hint))
         then Some (Path (default "" path_hint)) else None
    else None in
  match from_hint with
  | Some p => Some p
  | None =>
      let from_env :=
        match env_value environ "VULKAN_SDK" with
        | Some env_sdk => if exists_ fs (Path env_sdk) then Some (Path env_sdk) else None
        | None => None
        end in
      match from_env with
      | Some p => Some p
      | None =>
          let glslc := if truthy (which "glslc") then which "glslc" else which "glslc.exe" in
          if truthy glslc then
            let glslc_path := resolve (default "" glslc) in
            sdk_above [parent glslc_path; parent (parent glslc_path)]
          else None
      end
  end.

End Discovery.

End Locator.

(** *** The presets file *)

Module Presets.

(** One entry of [configurePresets]: its [name] and [binaryDir], when
    present. *)
Record configure_preset := ConfigurePreset {
  cp_name : option string;
  cp_binaryDir : option string;
}.

(** [CMakePresets.json] as [json.loads] gives it, or the exception text when
    the file cannot be read or parsed. *)
Inductive presets_file :=
| Unreadable (exc : string)
| Parsed (configurePresets : list configure_preset).

Section Resolve.
(** [REPO_ROOT], and [Path(resolved)], the parsing being pathlib's. *)
Variable REPO_ROOT : path.
Variable Path : string -> path.
Variable file : presets_file.

Definition BUILD_ROOT : path := REPO_ROOT ++ ["build"].

Definition load_cmake_presets : result (list configure_preset) :=
  match file with
  | Parsed data => Ok data
  | Unreadable exc =>
      Raise (SystemExit ("Failed to read " +:+ path_str (REPO_ROOT ++ ["CMakePresets.json"])
                         +:+ ": " +:+ exc))
  end.

(** The loop of [resolve_build_dir_for_preset] over the configure presets. *)
Fixpoint resolve_in (cfgs : list configure_preset) (preset : string) : path :=
  match cfgs with
  | [] => BUILD_ROOT ++ [preset]
  | cfg :: rest =>
      if negb (bool_decide (cp_name cfg = Some preset)) then resolve_in rest preset
      else
        if negb (truthy (cp_binaryDir cfg)) then BUILD_ROOT ++ [preset]
        else
          let binary_dir := default "" (cp_binaryDir cfg) in
          let resolved :=
            Str.replace (Str.replace binary_dir "${sourceDir}" (path_str REPO_ROOT))
                        "${presetName}" preset in
          Path resolved
  end.

Definition resolve_build_dir_for_preset (preset : string) : result path :=
  match load_cmake_presets with
  | Ok data => Ok (resolve_in data preset)
  | Raise e => Raise e
  end.

End Resolve.

End Presets.

(** *** The Apple entry point *)

Record apple_args := AppleArgs {
  aa_target : string;
  aa_clean : bool;
  aa_jobs : option Z;
}.

(** Each target with its normalized name and its output directory below
    [BIN_DIR]. *)
Definition APPLE_TARGETS : list (string * (string * path)) :=
  [ ("macos-arm64", ("macos-arm64", ["macos"; "arm64"]));
    ("macos-x86_64", ("macos-x86_64", ["macos"; "x86_64"]));
    ("macos-x64", ("macos-x86_64", ["macos"; "x86_64"]));
    ("ios-device-arm64", ("ios-device-arm64", ["ios"; "arm64"]));
    ("ios-sim-arm64", ("ios-sim-arm64", ["ios"; "arm64-sim"]));
    ("ios-sim-x86_64", ("ios-sim-x86_64", ["ios"; "x86_64-sim"]));
    ("ios-sim-x64", ("ios-sim-x86_64", ["ios"; "x86_64-sim"])) ].

(** [APPLE_TARGETS[target]] *)
Fixpoint apple_target (targets : list (string * (string * path))) (target : string)
    : result (string * path) :=
  match targets with
  | [] => Raise (KeyError target)
  | (k, v) :: rest => if String.eqb k target then Ok v else apple_target rest target
  end.

Definition build_apple (h : host) (args : apple_args) : M unit :=
  when (negb (String.eqb (Str.lower (platform_system h)) "darwin"))
       (fail "Apple builds must be run on macOS hosts");;
  ensure_submodule (THIRD_PARTY_DIR h ++ ["llama.cpp"; "CMakeLists.txt"])
    "Missing submodule: third_party/llama.cpp. Run: git submodule update --init --recursive";;
  entry ← lift (apple_target APPLE_TARGETS (aa_target args));
  let normalized := entry.1 in
  let out_dir := BIN_DIR h ++ entry.2 in
  let preset := normalized +:+ "-full" in
  clean_build_dir h preset (aa_clean args);;
  build_dir ← configure_and_build h preset (aa_jobs args) None None;
  copy_runtime_libraries h build_dir out_dir.

(** *** Vocabulary for the further properties *)

(** A command event is a [cmake] invocation with [CCACHE_DIR] set. *)
Definition cmake_event (e : event) : Prop :=
  match e with
  | Run cmd env => head cmd = Some "cmake" /\ is_Some (env !! "CCACHE_DIR")
  | _ => True
  end.

(** Every exception [m] can raise satisfies [Q]. *)
Definition raises_only (Q : exn -> Prop) {A} (m : M A) : Prop :=
  forall w e w', m w = (Raise e, w') -> Q e.

(** The exceptions of a failed step: a message, a failed command or a
    file-system error; never a missing key or a path outside the root. *)
Definition build_failure (e : exn) : Prop :=
  match e with
  | SystemExit _ | CalledProcessError _ | OSError _ => True
  | ValueError _ | KeyError _ => False
  end.

(** A darwin host for the Apple entry point, and a tree for the locators. *)
Definition sample_mac_host : host :=
  {| platform_system := "Darwin";
     platform_machine := "arm64";
     which := fun _ => None;
     environ := ∅;
     REPO_ROOT := ["repo"];
     resolve_build_dir_for_preset := fun preset => Ok ["repo"; "build"; preset];
     tool := fun _ _ fs => (0%Z, fs);
     detect_vcpkg_root := None;
     infer_vulkan_sdk := fun _ => None;
     find_file_with_suffix := fun _ _ _ => None |}.

(** An SDK with two NDK versions and a stray file beside them. *)
Definition sample_sdk_tree : fsys :=
  list_to_map
    [ (["sdk"], Dir);
      (["sdk"; "ndk"], Dir);
      (["sdk"; "ndk"; "25.1.8937393"], Dir);
      (["sdk"; "ndk"; "26.1.10909125"], Dir);
      (["sdk"; "ndk"; "zz-notes.txt"], File "notes");
      (["sdk"; "ndk"; "26.1.10909125"; "toolchains"], Dir);
      (["sdk"; "ndk"; "26.1.10909125"; "toolchains"; "aarch64-linux-android"], Dir);
      (["sdk"; "ndk"; "26.1.10909125"; "toolchains"; "aarch64-linux-android"; "libvulkan.so"],
       File "vk") ].

(** A stand-in for pathlib's parsing on the few strings the samples use. *)
Definition sample_Path (s : string) : path :=
  if String.eqb s "/sdk" then ["sdk"]
  else if String.eqb s "/sdk/ndk/25.1.8937393" then ["sdk"; "ndk"; "25.1.8937393"]
  else if String.eqb s "/repo/build/linux-x64-full" then ["repo"; "build"; "linux-x64-full"]
  else ["nowhere"; s].

(** A windows host with nothing on the PATH and no toolchain to discover. *)
Definition sample_windows_host : host :=
  {| platform_system := "Windows";
     platform_machine := "AMD64";
     which := fun _ => None;
     environ := ∅;
     REPO_ROOT := ["repo"];
     resolve_build_dir_for_preset := fun preset => Ok ["repo"; "build"; preset];
     tool := fun _ _ fs => (0%Z, fs);
     detect_vcpkg_root := None;
     infer_vulkan_sdk := fun _ => None;
     find_file_with_suffix := fun _ _ _ => None |}.

(** The events of a build before its outputs are copied: commands, and the
    clean of a preset's build directory. *)
Definition before_copy (h : host) (e : event) : Prop :=
  match e with
  | Run _ _ => True
  | Rmtree p => exists preset, resolve_build_dir_for_preset h preset = Ok p
  | _ => False
  end.

(** When [m] raises an exception in [Q], it has only appended events that
    satisfy [P]. *)
Definition emits_on_raise (Q : exn -> Prop) (P : event -> Prop) {A} (m : M A) : Prop :=
  forall w e w', m w = (Raise e, w') -> Q e ->
    exists delta, w_log w' = w_log w ++ delta /\ Forall P delta.

Definition command_failed (e : exn) : Prop :=
  match e with
  | CalledProcessError _ => True
  | _ => False
  end.

(** What the script ends with when it fails: a message or a file-system
    error. *)
Definition exit_or_os_error (e : exn) : Prop :=
  match e with
  | SystemExit _ | OSError _ => True
  | _ => False
  end.

(** What [find_file_with_suffix] looks for. *)
Definition suffix_match (fs : fsys) (suffix : string) (contains : option string)
    (p : path) : Prop :=
  is_file fs p = true /\
  Str.endswith (path_str p) suffix = true /\
  (truthy contains = true -> Str.contains (path_str p) (default "" contains) = true).

(** A windows host where vcpkg is installed, and a tree that holds its
    toolchain file. *)
Definition sample_vcpkg_host : host :=
  {| platform_system := "Windows";
     platform_machine := "AMD64";
     which := fun _ => None;
     environ := ∅;
     REPO_ROOT := ["repo"];
     resolve_build_dir_for_preset := fun preset => Ok ["repo"; "build"; preset];
     tool := fun _ _ fs => (0%Z, fs);
     detect_vcpkg_root := Some ["vcpkg"];
     infer_vulkan_sdk := fun _ => None;
     find_file_with_suffix := fun _ _ _ => None |}.

Definition sample_vcpkg_tree : fsys :=
  list_to_map
    [ (["repo"; "third_party"; "llama.cpp"; "CMakeLists.txt"], File "project(llama)");
      (["vcpkg"; "scripts"; "buildsystems"; "vcpkg.cmake"], File "# vcpkg") ].

(** An SDK whose NDK directory holds versions 9 and 26. *)
Definition sample_old_ndk_tree : fsys :=
  list_to_map
    [ (["sdk"], Dir);
      (["sdk"; "ndk"], Dir);
      (["sdk"; "ndk"; "9.0.7"], Dir);
      (["sdk"; "ndk"; "26.1.10909125"], Dir) ].

(** A presets file with two entries of one name, and the entry CMake's
    documentation suggests. *)
Definition sample_presets : Presets.presets_file :=
  Presets.Parsed
    [ Presets.ConfigurePreset (Some "base") None;
      Presets.ConfigurePreset (Some "linux-x64-full")
        (Some "${sourceDir}/build/${presetName}");
      Presets.ConfigurePreset (Some "linux-x64-full") (Some "/elsewhere") ].

(** * Properties *)

(** ** Facts about the string methods *)

Module StrFacts.
Import Str.

Lemma app_cons c s t : String c s +:+ t = String c (s +:+ t).
Proof. reflexivity. Qed.

Lemma app_nil_l s : "" +:+ s = s.
Proof. reflexivity. Qed.

Lemma app_nil_r s : s +:+ "" = s.
Proof. induction s as [|c s IH]; [done | by rewrite app_cons, IH]. Qed.

Lemma app_assoc s t u : (s +:+ t) +:+ u = s +:+ (t +:+ u).
Proof. induction s as [|c s IH]; [done | by rewrite !app_cons, IH]. Qed.

Lemma length_app s t :
  String.length (s +:+ t) = (String.length s + String.length t)%nat.
Proof. induction s as [|c s IH]; [done | rewrite app_cons; simpl; by rewrite IH]. Qed.

Lemma startswith_spec s p : startswith s p = true <-> exists t, s = p +:+ t.
Proof.
  revert s. induction p as [|a p IH]; intros s; simpl.
  - split; [intros _; by exists s | done].
  - destruct s as [|b s].
    + split; [done | intros [t Ht]; discriminate].
    + rewrite andb_true_iff, Ascii.eqb_eq, IH. split.
      * intros [-> [t ->]]. by exists t.
      * intros [t Ht]. rewrite app_cons in Ht. injection Ht as -> ->. eauto.
Qed.

Lemma startswith_app p t : startswith (p +:+ t) p = true.
Proof. apply startswith_spec. by exists t. Qed.

Lemma startswith_refl p : startswith p p = true.
Proof. apply startswith_spec. exists "". by rewrite app_nil_r. Qed.

Lemma drop_app s t : drop (String.length s) (s +:+ t) = t.
Proof. induction s as [|c s IH]; [by destruct t | by rewrite app_cons]. Qed.

Lemma drop_length s : drop (String.length s) s = "".
Proof. induction s as [|c s IH]; simpl; done. Qed.

Lemma drop_drop n m s : drop n (drop m s) = drop (m + n) s.
Proof.
  revert s. induction m as [|m IH]; intros s; simpl; [done|].
  destruct s as [|c s]; [by destruct n | apply IH].
Qed.

Lemma length_drop n s : String.length (drop n s) = (String.length s - n)%nat.
Proof.
  revert s. induction n as [|n IH]; intros s; simpl; [lia|].
  destruct s as [|c s]; simpl; [done | apply IH].
Qed.

Lemma contains_spec s sub :
  contains s sub = true <-> exists a b, s = a +:+ sub +:+ b.
Proof.
  induction s as [|c s IH]; simpl.
  - rewrite orb_false_r, startswith_spec. split.
    + intros [t Ht]. by exists "", t.
    + intros [a [b Hab]]. destruct a; [by exists b | discriminate].
  - rewrite orb_true_iff, startswith_spec, IH. split.
    + intros [[t Ht] | [a [b Hab]]].
      * by exists "", t.
      * exists (String c a), b. by rewrite app_cons, Hab.
    + intros [a [b Hab]]. destruct a as [|c' a].
      * left. by exists b.
      * right. rewrite app_cons in Hab. injection Hab as _ ->. by exists a, b.
Qed.

Lemma contains_startswith s sub : startswith s sub = true -> contains s sub = true.
Proof. intros H. destruct s; simpl in *; by rewrite H. Qed.

Lemma contains_cons c s sub :
  contains s sub = true -> contains (String c s) sub = true.
Proof. intros H. simpl contains. rewrite H. apply orb_true_r. Qed.

Lemma contains_app_r a s sub :
  contains s sub = true -> contains (a +:+ s) sub = true.
Proof.
  induction a as [|c a IH]; [done|]. intros H.
  rewrite app_cons. by apply contains_cons, IH.
Qed.

Lemma startswith_length s p :
  startswith s p = true -> (String.length p <= String.length s)%nat.
Proof. intros [t ->]%startswith_spec. rewrite length_app. lia. Qed.

Lemma startswith_app_comparable a b w :
  startswith (a +:+ b) w = true -> startswith a w = true \/ startswith w a = true.
Proof.
  revert w. induction a as [|c a IH]; intros w H; [by right|].
  destruct w as [|d w]; [by left|].
  rewrite app_cons in H. simpl in H. apply andb_true_iff in H as [Hc H].
  simpl. rewrite Hc. apply Ascii.eqb_eq in Hc as ->. rewrite Ascii.eqb_refl.
  simpl. by apply IH.
Qed.

Lemma unbordered_spec p k :
  unbordered p = true -> (0 < k < String.length p)%nat ->
  startswith p (drop k p) = false.
Proof.
  unfold unbordered. rewrite forallb_forall. intros H Hk.
  apply negb_true_iff, H, in_seq. lia.
Qed.

(** *** The scan, unfolded one step *)

Lemma replace_from_skip old new a s :
  replace_from old new (String.length a) (a +:+ s) = replace_from old new 0 s.
Proof. induction a as [|c a IH]; [by destruct s | by rewrite app_cons]. Qed.

Section Replace.
Variables old new : string.
Hypothesis old_nonempty : old <> "".

Lemma replace_nil : replace "" old new = "".
Proof. unfold replace. by destruct old. Qed.

Lemma replace_hit s : replace (old +:+ s) old new = new +:+ replace s old new.
Proof.
  unfold replace. destruct old as [|c o] eqn:E; [done|].
  rewrite app_cons. cbn [replace_from].
  rewrite <- (app_cons c o s), startswith_app.
  replace (String.length (String c o) - 1)%nat with (String.length o)
    by (simpl; lia).
  by rewrite replace_from_skip.
Qed.

Lemma replace_miss c s :
  startswith (String c s) old = false ->
  replace (String c s) old new = String c (replace s old new).
Proof.
  unfold replace. destruct old as [|d o] eqn:E; [done|].
  intros H. cbn [replace_from]. by rewrite H.
Qed.

(** A string whose scan finds nothing is returned as it is. *)
Lemma replace_absent s : contains s old = false -> replace s old new = s.
Proof.
  induction s as [|c s IH]; [intros _; apply replace_nil|].
  simpl contains. intros [H1 H2]%orb_false_iff.
  by rewrite replace_miss, IH.
Qed.

(** Where [old] occurs, the result holds [new]. *)
Lemma contains_replace s :
  contains s old = true -> contains (replace s old new) new = true.
Proof.
  induction s as [|c s IH]; intros H.
  - simpl in H. rewrite orb_false_r in H.
    destruct old; [done | discriminate].
  - destruct (startswith (String c s) old) eqn:E.
    + apply startswith_spec in E as [t ->]. rewrite replace_hit.
      apply contains_startswith, startswith_app.
    + simpl contains in H. rewrite E in H. simpl in H.
      rewrite replace_miss by done. by apply contains_cons, IH.
Qed.

(** How a prefix [w] of the result arises: literally from [s], or its
    first [j] characters do and an occurrence of [old] follows, with the
    rest of [w] lying along [new]. *)
Lemma startswith_replace s : forall w,
  startswith (replace s old new) w = true ->
  startswith s w = true \/
  exists j, (j < String.length w)%nat /\
            startswith (drop j s) old = true /\
            (startswith new (drop j w) = true \/
             startswith (drop j w) new = true).
Proof.
  induction s as [|c s IH]; intros w H.
  - rewrite replace_nil in H. by left.
  - destruct w as [|d w]; [by left|].
    destruct (startswith (String c s) old) eqn:E.
    + right. exists 0%nat. split; [simpl; lia|]. split; [done|].
      apply startswith_spec in E as [t Ht]. rewrite Ht, replace_hit in H.
      by apply startswith_app_comparable in H.
    + rewrite replace_miss in H by done. simpl in H.
      apply andb_true_iff in H as [Hc H].
      destruct (IH w H) as [Hw | (j & Hj & Ho & Hn)].
      * left. simpl. by rewrite Hc.
      * right. exists (S j). split; [simpl; lia | by split].
Qed.

(** With no [new] in [s] and none of its borders to build on, the scan
    cannot produce [new] at a place where [old] did not start. *)
Lemma replace_no_new_prefix s :
  unbordered new = true ->
  contains s new = false -> startswith s old = false ->
  startswith (replace s old new) new = false.
Proof.
  intros Hunb Hs Ho. apply not_true_is_false. intros H.
  apply startswith_replace in H as [H | (j & Hj & Hjo & Hjn)].
  - apply contains_startswith in H. congruence.
  - destruct j as [|j]; [simpl in Hjo; congruence|].
    destruct Hjn as [Hjn | Hjn].
    + rewrite unbordered_spec in Hjn by (done || lia). done.
    + apply startswith_length in Hjn. rewrite length_drop in Hjn. lia.
Qed.
End Replace.

(** Replacing [old] by [new] and then [new] by [old] gives the text back
    when it held no [new] to begin with and [new] is unbordered. *)
Lemma replace_roundtrip old new :
  old <> "" -> new <> "" -> unbordered new = true ->
  forall s, contains s new = false ->
            replace (replace s old new) new old = s.
Proof.
  intros Hold Hnew Hunb s.
  remember (String.length s) as n eqn:Hn. revert s Hn.
  induction n as [n IH] using lt_wf_ind. intros s Hn Hs.
  destruct s as [|c s]; [by rewrite !replace_nil|].
  destruct (startswith (String c s) old) eqn:E.
  - apply startswith_spec in E as [t Ht].
    rewrite Ht, !replace_hit by done. f_equal.
    apply (IH (String.length t)); [|done|].
    + subst n. rewrite Ht, length_app. destruct old; [done | simpl; lia].
    + destruct (contains t new) eqn:Et; [|done].
      rewrite Ht, contains_app_r in Hs; done.
  - assert (contains s new = false) as Hs'.
    { simpl contains in Hs. by apply orb_false_iff in Hs as [_ ?]. }
    rewrite (replace_miss old) by done. rewrite replace_miss; [|done|].
    + f_equal. apply (IH (String.length s)); [subst n; simpl; lia | done..].
    + rewrite <- (replace_miss old) by done.
      by apply replace_no_new_prefix.
Qed.

Lemma incomparable_from_spec k u a d :
  incomparable_from k u a = true -> (k <= d < String.length u)%nat ->
  startswith (drop d u) a = false /\ startswith a (drop d u) = false.
Proof.
  unfold incomparable_from. rewrite forallb_forall. intros H Hd.
  specialize (H d). rewrite in_seq, andb_true_iff, !negb_true_iff in H.
  apply H. lia.
Qed.

(** An occurrence of [a] in [u +:+ v] lies in [v] or begins inside [u]. *)
Lemma contains_app_cases u v a :
  contains (u +:+ v) a = true ->
  contains v a = true \/
  exists d, (d < String.length u)%nat /\ startswith (drop d u +:+ v) a = true.
Proof.
  induction u as [|c u IH]; [by left|].
  rewrite app_cons. simpl contains. intros [H|H]%orb_true_iff.
  - right. exists 0%nat. split; [simpl; lia | by rewrite <- app_cons in H].
  - destruct (IH H) as [?|(d & Hd & Hs)]; [by left|].
    right. exists (S d). split; [simpl; lia | done].
Qed.

(** Where no occurrence of [a] can begin inside [b] or straddle the end of
    one, replacing [a] by [b] leaves no [a] behind. *)
Lemma replace_purges a b :
  a <> "" ->
  incomparable_from 0 b a = true -> incomparable_from 1 a b = true ->
  forall s, contains (replace s a b) a = false.
Proof.
  intros Ha Hb Hab s.
  remember (String.length s) as n eqn:Hn. revert s Hn.
  induction n as [n IH] using lt_wf_ind. intros s Hn.
  destruct s as [|c s].
  { rewrite replace_nil by done. simpl. by destruct a. }
  destruct (startswith (String c s) a) eqn:E.
  - apply startswith_spec in E as [t Ht]. rewrite Ht, replace_hit by done.
    apply not_true_is_false. intros [H|(d & Hd & H)]%contains_app_cases.
    + rewrite (IH (String.length t)) in H; [done| |done].
      subst n. rewrite Ht, length_app. destruct a; [done | simpl; lia].
    + apply startswith_app_comparable in H.
      destruct (incomparable_from_spec 0 b a d Hb) as [H1 H2]; [lia|].
      destruct H; congruence.
  - rewrite replace_miss by done. simpl contains.
    rewrite (IH (String.length s)); [|subst n; simpl; lia|done].
    rewrite orb_false_r. rewrite <- (replace_miss a b) by done.
    apply not_true_is_false. intros H.
    apply (startswith_replace a b Ha) in H as [H | (j & Hj & Hja & Hjb)].
    { congruence. }
    destruct j as [|j]; [simpl in Hja; congruence|].
    destruct (incomparable_from_spec 1 a b (S j) Hab) as [H1 H2]; [lia|].
    destruct Hjb; congruence.
Qed.

End StrFacts.

(** ** The monad and the effect log *)

Lemma bind_unfold {A B} (m : M A) (f : A -> M B) w :
  (m ≫= f) w =
  match m w with
  | (Ok a, w') => f a w'
  | (Raise e, w') => (Raise e, w')
  end.
Proof. reflexivity. Qed.

Lemma bind_ok {A B} (m : M A) (f : A -> M B) w a w' :
  m w = (Ok a, w') -> (m ≫= f) w = f a w'.
Proof. intros H. by rewrite bind_unfold, H. Qed.

Lemma bind_raise {A B} (m : M A) (f : A -> M B) w e w' :
  m w = (Raise e, w') -> (m ≫= f) w = (Raise e, w').
Proof. intros H. by rewrite bind_unfold, H. Qed.

Lemma commands_app l1 l2 : commands (l1 ++ l2) = commands l1 ++ commands l2.
Proof. apply omap_app. Qed.

Lemma commands_not_run delta : Forall not_run delta -> commands delta = [].
Proof.
  induction 1 as [|e delta He _ IH]; [done|].
  destruct e; try discriminate He; exact IH.
Qed.

Section Emits.
Context (P : event -> Prop).

Lemma emits_weaken (Q : event -> Prop) {A} (m : M A) :
  (forall e, Q e -> P e) -> emits Q m -> emits P m.
Proof.
  intros HQ Hm w. destruct (Hm w) as (delta & -> & Hd).
  exists delta. split; [done|]. eapply Forall_impl; eauto.
Qed.

Lemma emits_ret {A} (a : A) : emits P (mret a).
Proof. intros w. exists []. by rewrite app_nil_r. Qed.

Lemma emits_raise {A} e : emits P (@raise A e).
Proof. intros w. exists []. by rewrite app_nil_r. Qed.

Lemma emits_fail {A} msg : emits P (@fail A msg).
Proof. apply emits_raise. Qed.

Lemma emits_lift {A} (r : result A) : emits P (lift r).
Proof. intros w. exists []. by rewrite app_nil_r. Qed.

Lemma emits_get_fs : emits P get_fs.
Proof. intros w. exists []. by rewrite app_nil_r. Qed.

Lemma emits_put_fs fs : emits P (put_fs fs).
Proof. intros w. exists []. by rewrite app_nil_r. Qed.

Lemma emits_emit e : P e -> emits P (emit e).
Proof. intros He w. exists [e]. split; [done | by constructor]. Qed.

(** The continuation need only behave on what [m] can return. *)
Lemma emits_bind_post {A B} (m : M A) (f : A -> M B) :
  emits P m ->
  (forall w a w', m w = (Ok a, w') -> emits P (f a)) ->
  emits P (m ≫= f).
Proof.
  intros Hm Hf w. rewrite bind_unfold.
  destruct (Hm w) as (d1 & E1 & H1).
  destruct (m w) as [[a|e] w'] eqn:E; simpl in *; [|by exists d1].
  destruct (Hf _ _ _ E w') as (d2 & E2 & H2).
  exists (d1 ++ d2). split; [by rewrite E2, E1, <- app_assoc | by apply Forall_app].
Qed.

Lemma emits_bind {A B} (m : M A) (f : A -> M B) :
  emits P m -> (forall a, emits P (f a)) -> emits P (m ≫= f).
Proof. intros Hm Hf. apply emits_bind_post; auto. Qed.

Lemma emits_when b m : emits P m -> emits P (when b m).
Proof. intros Hm. destruct b; [done | apply emits_ret]. Qed.

Lemma emits_for_each {A} (l : list A) (f : A -> M unit) :
  (forall x, emits P (f x)) -> emits P (for_each l f).
Proof.
  intros Hf. induction l as [|x l IH]; [apply emits_ret|].
  apply emits_bind; auto.
Qed.

Lemma emits_try_finally {A} (body : M A) fin :
  emits P body -> emits P fin -> emits P (try_finally body fin).
Proof.
  intros Hb Hf w. unfold try_finally.
  destruct (Hb w) as (d1 & E1 & H1). destruct (body w) as [r w1].
  destruct (Hf w1) as (d2 & E2 & H2).
  exists (d1 ++ d2). split; [|by apply Forall_app].
  simpl in E1. rewrite app_assoc, <- E1, <- E2.
  by destruct (fin w1) as [[[]|e] w2].
Qed.

Lemma emits_if {A} (b : bool) (m1 m2 : M A) :
  emits P m1 -> emits P m2 -> emits P (if b then m1 else m2).
Proof. by destruct b. Qed.
End Emits.

Create HintDb emits.
#[global] Hint Resolve emits_ret emits_raise emits_fail emits_lift emits_get_fs
  emits_put_fs emits_when emits_for_each emits_try_finally emits_if : emits.

(** Walks through a computation built from the combinators above. *)
Ltac solve_emits :=
  repeat first
    [ solve [auto with emits]
    | progress cbv zeta
    | apply emits_bind; [|intros ?]
    | apply emits_emit; done
    | apply emits_ret | apply emits_raise | apply emits_fail | apply emits_lift
    | apply emits_get_fs | apply emits_put_fs
    | apply emits_when | apply emits_for_each; intros ?
    | apply emits_try_finally
    | match goal with
      | |- emits _ (match ?x with _ => _ end) => destruct x
      end ].

Lemma emits_read_text P p : emits P (read_text p).
Proof. unfold read_text. solve_emits. Qed.

Lemma emits_write_text p data : emits write_event (write_text p data).
Proof. unfold write_text. solve_emits. Qed.

Lemma emits_rmtree p : emits fs_event (rmtree p).
Proof. unfold rmtree. solve_emits. Qed.

Lemma emits_mkdir_parents p : emits fs_event (mkdir_parents p).
Proof. unfold mkdir_parents. solve_emits. Qed.

Lemma emits_copy2 src dst : emits fs_event (copy2 src dst).
Proof. unfold copy2. solve_emits. Qed.

Lemma emits_relative_to P p base : emits P (relative_to p base).
Proof. unfold relative_to. solve_emits. Qed.

#[global] Hint Resolve emits_read_text emits_write_text emits_rmtree
  emits_mkdir_parents emits_copy2 emits_relative_to : emits.

Section DriverEmits.
Variable h : host.

Lemma emits_run cmd env : emits run_event (run h cmd env).
Proof.
  intros w. unfold run.
  destruct (tool h cmd (effective_env h env) (w_fs w)) as [returncode fs'].
  eexists [_]. split; [by destruct (returncode =? 0)%Z|].
  by repeat constructor.
Qed.

Lemma emits_ensure_submodule P p error : emits P (ensure_submodule p error).
Proof. unfold ensure_submodule. solve_emits. Qed.

Lemma emits_detect_linux_arch P : emits P (detect_linux_arch h).
Proof. unfold detect_linux_arch. solve_emits. Qed.

Lemma emits_linux_arch P args : emits P (linux_arch h args).
Proof. unfold linux_arch. solve_emits. apply emits_detect_linux_arch. Qed.

Hint Resolve emits_run emits_ensure_submodule emits_detect_linux_arch
  emits_linux_arch : emits.

Lemma emits_patch : emits write_event (patch_llama_zendnn_install_target h).
Proof. unfold patch_llama_zendnn_install_target. solve_emits. Qed.

Lemma emits_restore : emits write_event (restore_llama_zendnn_install_target h).
Proof. unfold restore_llama_zendnn_install_target. solve_emits. Qed.

Lemma emits_clean_build_dir preset clean :
  emits fs_event (clean_build_dir h preset clean).
Proof. unfold clean_build_dir. solve_emits. Qed.

Lemma emits_configure_and_build preset jobs extra env :
  emits run_event (configure_and_build h preset jobs extra env).
Proof. unfold configure_and_build. solve_emits. Qed.

Lemma emits_collect_runtime_libraries P build_dir :
  emits P (collect_runtime_libraries build_dir).
Proof. unfold collect_runtime_libraries. solve_emits. Qed.

Lemma emits_reset_dir p : emits fs_event (reset_dir p).
Proof. unfold reset_dir. solve_emits. Qed.

Lemma emits_copy_output src dst : emits fs_event (copy_output h src dst).
Proof. unfold copy_output. solve_emits. Qed.

Hint Resolve emits_collect_runtime_libraries emits_reset_dir
  emits_copy_output : emits.

Lemma emits_copy_runtime_libraries build_dir out_dir :
  emits fs_event (copy_runtime_libraries h build_dir out_dir).
Proof. unfold copy_runtime_libraries. solve_emits. Qed.
End DriverEmits.

#[global] Hint Resolve emits_run emits_ensure_submodule emits_detect_linux_arch
  emits_linux_arch emits_patch emits_restore emits_clean_build_dir
  emits_configure_and_build emits_collect_runtime_libraries emits_reset_dir
  emits_copy_output emits_copy_runtime_libraries : emits.

Lemma fs_event_not_run e : fs_event e -> not_run e.
Proof. by destruct e. Qed.
Lemma fs_event_not_write e : fs_event e -> not_write e.
Proof. by destruct e. Qed.
Lemma run_event_not_write e : run_event e -> not_write e.
Proof. by destruct e. Qed.

(** ** Cache-variable resolution *)

(** Splits [x ∈ [a; b; ...]] into its cases. *)
Ltac elem_cases H :=
  repeat (apply elem_of_cons in H as [->|H]); try (by apply elem_of_nil in H).

(** C1, as the claim states it: every binding of the resolved mapping is
    [ON] when the backend implies its key and [OFF] otherwise.  It fails on
    linux for [arm64] with the [blas] backend: [GGML_CPU_KLEIDIAI] is [ON]
    although [blas] does not imply it, and [GGML_BLAS_VENDOR] is bound to
    [OpenBLAS]. *)
Lemma cache_vars_not_only_backend_switches :
  linux_backend_cache_vars "arm64" "blas" =
    Ok [("GGML_VULKAN", "OFF"); ("GGML_OPENCL", "OFF"); ("GGML_CUDA", "OFF");
        ("GGML_BLAS", "ON"); ("GGML_ZENDNN", "OFF"); ("GGML_CPU_KLEIDIAI", "ON");
        ("GGML_BLAS_VENDOR", "OpenBLAS")] /\
  ~ (forall pl arch backend cv,
       supported pl arch backend ->
       backend_cache_vars pl arch backend = Ok cv ->
       forall k v, (k, v) ∈ cv -> v = on_off (backend_implies pl backend k)).
Proof.
  split; [reflexivity|]. intros H.
  assert (supported Linux "arm64" "blas") as Hs.
  { repeat split; [set_solver.. | by intros [? _]]. }
  specialize (H Linux "arm64" "blas" _ Hs eq_refl "GGML_CPU_KLEIDIAI" "ON").
  discriminate H. set_solver.
Qed.

(** C1, amended: for every supported triple the resolver returns a mapping
    whose keys are the platform's switches, in order, followed by
    [GGML_BLAS_VENDOR] exactly when BLAS is on; every switch is [ON] or
    [OFF]; the backend switches are [ON] exactly when the backend implies
    them (nothing is said of [GGML_CUDA] for [full] off [x64]);
    [GGML_ZENDNN] is [OFF]; [GGML_CPU_KLEIDIAI] follows the architecture;
    and [GGML_BLAS_VENDOR], when present, is [OpenBLAS]. *)
Theorem cache_vars_resolution pl arch backend :
  supported pl arch backend ->
  exists cv,
    backend_cache_vars pl arch backend = Ok cv /\
    keys cv = capability_keys pl ++
              (if backend_implies pl backend "GGML_BLAS"
               then ["GGML_BLAS_VENDOR"] else []) /\
    (forall k, k ∈ capability_keys pl ->
               dict_get cv k = Some "ON" \/ dict_get cv k = Some "OFF") /\
    (forall k, k ∈ ["GGML_VULKAN"; "GGML_OPENCL"; "GGML_CUDA"; "GGML_BLAS"] ->
               k ∈ capability_keys pl ->
               ~ (k = "GGML_CUDA" /\ backend = "full" /\ arch <> "x64") ->
               dict_get cv k = Some (on_off (backend_implies pl backend k))) /\
    (pl = Linux -> dict_get cv "GGML_ZENDNN" = Some "OFF") /\
    dict_get cv "GGML_CPU_KLEIDIAI" = Some (on_off (is_arm64 pl arch)) /\
    dict_get cv "GGML_BLAS_VENDOR" =
      (if backend_implies pl backend "GGML_BLAS" then Some "OpenBLAS" else None).
Proof.
  intros (Ha & Hb & Hc).
  destruct pl; simpl in Ha, Hb; elem_cases Ha; elem_cases Hb;
    try (exfalso; apply Hc; by split);
    (eexists; split; [vm_compute; reflexivity|]);
    (split; [reflexivity|]);
    (split; [intros k Hk; simpl in Hk; elem_cases Hk; vm_compute; auto|]);
    (split; [intros k Hk Hk' Hn; elem_cases Hk; try reflexivity;
             try (by apply (bool_decide_pack _) in Hk'; vm_compute in Hk');
             exfalso; apply Hn; by repeat split|]);
    (split; [try done; intros _; reflexivity|]);
    split; reflexivity.
Qed.

(** What the linux and windows resolvers do with [full] on [arm64], which
    the theorem above leaves open: CUDA is switched on. *)
Example full_on_arm64_enables_cuda :
  match linux_backend_cache_vars "arm64" "full" with
  | Ok cv => dict_get cv "GGML_CUDA"
  | Raise _ => None
  end = Some "ON" /\
  match windows_backend_cache_vars "arm64" "full" with
  | Ok cv => dict_get cv "GGML_CUDA"
  | Raise _ => None
  end = Some "ON".
Proof. split; reflexivity. Qed.

Lemma cache_vars_resolution_witness :
  supported Linux "x64" "full" /\
  exists cv, linux_backend_cache_vars "x64" "full" = Ok cv /\
             dict_get cv "GGML_CUDA" = Some "ON" /\
             dict_get cv "GGML_CPU_KLEIDIAI" = Some "OFF".
Proof.
  assert (supported Linux "x64" "full") as Hs.
  { repeat split; [set_solver.. | by intros [? ?]]. }
  split; [exact Hs|].
  destruct (cache_vars_resolution Linux "x64" "full" Hs)
    as (cv & Hcv & _ & _ & Hsw & _ & Hk & _).
  exists cv. split; [exact Hcv|]. split; [|exact Hk].
  apply (Hsw "GGML_CUDA"); [set_solver | set_solver | by intros (_ & _ & ?)].
Defined.

(** ** The ZenDNN patch *)

Lemma zendnn_old_nonempty : zendnn_old <> "".
Proof. discriminate. Qed.

Lemma zendnn_new_nonempty : zendnn_new <> "".
Proof. discriminate. Qed.

Lemma zendnn_new_unbordered : Str.unbordered zendnn_new = true.
Proof. vm_compute. reflexivity. Qed.

(** Unfolds the monad and the file-system calls of the patch pair. *)
Ltac unfold_patch :=
  cbv beta iota zeta delta
    [patch_llama_zendnn_install_target restore_llama_zendnn_install_target
     ensure_submodule read_text write_text get_fs put_fs emit fail raise
     mret mbind M_ret M_bind is_file w_fs w_log negb].

Section ZendnnPatch.
Variable h : host.

Lemma patch_applies fs log text :
  fs !! zendnn_cmake_file h = Some (File text) ->
  Str.contains text zendnn_new = false ->
  Str.contains text zendnn_old = true ->
  patch_llama_zendnn_install_target h (World fs log) =
    (Ok true,
     World (<[zendnn_cmake_file h := File (Str.replace text zendnn_old zendnn_new)]> fs)
           (log ++ [WriteText (zendnn_cmake_file h) (Str.replace text zendnn_old zendnn_new)])).
Proof.
  intros Hf Hn Ho. unfold_patch.
  repeat (progress (rewrite ?Hf, ?Hn, ?Ho; cbv beta iota)). done.
Qed.

Lemma patch_already_applied fs log text :
  fs !! zendnn_cmake_file h = Some (File text) ->
  Str.contains text zendnn_new = true ->
  patch_llama_zendnn_install_target h (World fs log) = (Ok false, World fs log).
Proof.
  intros Hf Hn. unfold_patch.
  repeat (progress (rewrite ?Hf, ?Hn; cbv beta iota)). done.
Qed.

Lemma restore_reverts fs log text :
  fs !! zendnn_cmake_file h = Some (File text) ->
  Str.contains text zendnn_new = true ->
  restore_llama_zendnn_install_target h (World fs log) =
    (Ok tt,
     World (<[zendnn_cmake_file h := File (Str.replace text zendnn_new zendnn_old)]> fs)
           (log ++ [WriteText (zendnn_cmake_file h) (Str.replace text zendnn_new zendnn_old)])).
Proof.
  intros Hf Hn. unfold_patch.
  repeat (progress (rewrite ?Hf, ?Hn; cbv beta iota)). done.
Qed.

Lemma restore_unpatched fs log text :
  fs !! zendnn_cmake_file h = Some (File text) ->
  Str.contains text zendnn_new = false ->
  restore_llama_zendnn_install_target h (World fs log) = (Ok tt, World fs log).
Proof.
  intros Hf Hn. unfold_patch.
  repeat (progress (rewrite ?Hf, ?Hn; cbv beta iota)). done.
Qed.

Lemma restore_no_file fs log :
  is_file fs (zendnn_cmake_file h) = false ->
  restore_llama_zendnn_install_target h (World fs log) = (Ok tt, World fs log).
Proof.
  intros Hf. unfold restore_llama_zendnn_install_target.
  rewrite bind_unfold. cbv beta iota zeta delta [get_fs w_fs].
  by rewrite Hf.
Qed.
End ZendnnPatch.



(** ** The configure and build steps *)

Lemma run_ok h cmd env w fs' :
  tool h cmd (effective_env h env) (w_fs w) = (0%Z, fs') ->
  run h cmd env w = (Ok tt, World fs' (w_log w ++ [Run cmd (effective_env h env)])).
Proof. intros H. unfold run. by rewrite H. Qed.

Lemma run_failed h cmd env w returncode fs' :
  tool h cmd (effective_env h env) (w_fs w) = (returncode, fs') ->
  returncode <> 0%Z ->
  run h cmd env w =
    (Raise (CalledProcessError returncode),
     World fs' (w_log w ++ [Run cmd (effective_env h env)])).
Proof.
  intros H Hc. unfold run. rewrite H.
  by apply Z.eqb_neq in Hc as ->.
Qed.

(** C7: the configure command runs first, without the job count; a
    non-zero exit raises [CalledProcessError] with that exit code and the
    build command is not run; after a successful configure the build
    command runs once, with [--parallel N] exactly for a positive job
    count, and a non-zero exit raises with its exit code; no command runs
    twice. *)
Theorem configure_and_build_steps h preset jobs extra env w c1 fs1 :
  let configure_cmd := ["cmake"; "--preset"; preset] ++ default [] extra in
  let build_cmd :=
    ["cmake"; "--build"; "--preset"; preset] ++
    match jobs with
    | Some j => if (0 <? j)%Z then ["--parallel"; str_of_int j] else []
    | None => []
    end in
  let eff := effective_env h env in
  tool h configure_cmd eff (w_fs w) = (c1, fs1) ->
  (c1 <> 0%Z ->
   configure_and_build h preset jobs extra env w =
     (Raise (CalledProcessError c1),
      World fs1 (w_log w ++ [Run configure_cmd eff]))) /\
  (c1 = 0%Z ->
   forall c2 fs2,
     tool h build_cmd eff fs1 = (c2, fs2) ->
     configure_and_build h preset jobs extra env w =
       (if (c2 =? 0)%Z then resolve_build_dir_for_preset h preset
        else Raise (CalledProcessError c2),
        World fs2 (w_log w ++ [Run configure_cmd eff; Run build_cmd eff]))).
Proof.
  intros configure_cmd build_cmd eff H1. unfold configure_and_build.
  fold configure_cmd build_cmd. split.
  - intros Hc. erewrite bind_raise; [done|]. by apply run_failed.
  - intros -> c2 fs2 H2.
    erewrite bind_ok by (by apply run_ok).
    destruct (Z.eqb_spec c2 0) as [->|Hc2].
    + erewrite bind_ok by (by apply run_ok).
      unfold lift. cbn [w_log w_fs]. by rewrite <- app_assoc.
    + erewrite bind_raise by (by apply run_failed).
      cbn [w_log w_fs]. by rewrite <- app_assoc.
Qed.

(** ** The entry points up to cache-variable resolution *)

Lemma when_fail b msg w :
  when b (fail msg) w = if b then (Raise (SystemExit msg), w) else (Ok tt, w).
Proof. by destruct b. Qed.

Lemma ensure_submodule_unfold p error w :
  ensure_submodule p error w =
  if is_file (w_fs w) p then (Ok tt, w) else (Raise (SystemExit error), w).
Proof.
  unfold ensure_submodule. rewrite bind_unfold. cbv beta iota delta [get_fs].
  by destruct (is_file (w_fs w) p).
Qed.

Lemma detect_linux_arch_pure h w : (detect_linux_arch h w).2 = w.
Proof.
  unfold detect_linux_arch.
  by repeat match goal with |- context [if ?b then _ else _] => destruct b end.
Qed.

(** What a computation leaves of the commands run so far, when it runs
    none itself. *)
Lemma commands_unchanged {A} (m : M A) w :
  emits not_run m -> commands (w_log (m w).2) = commands (w_log w).
Proof.
  intros Hm. destruct (Hm w) as (delta & -> & Hd).
  by rewrite commands_app, (commands_not_run delta), app_nil_r.
Qed.

Lemma clean_build_dir_commands h preset clean w :
  commands (w_log (clean_build_dir h preset clean w).2) = commands (w_log w).
Proof.
  apply commands_unchanged.
  eapply emits_weaken; [apply fs_event_not_run | apply emits_clean_build_dir].
Qed.

Lemma linux_cuda_rejected arch :
  arch <> "x64" ->
  linux_backend_cache_vars arch "cuda" =
    Raise (SystemExit "Linux cuda backend build is only available for x64").
Proof.
  intros Ha. unfold linux_backend_cache_vars.
  by apply String.eqb_neq in Ha as ->.
Qed.

Lemma windows_cuda_rejected arch :
  arch <> "x64" ->
  windows_backend_cache_vars arch "cuda" =
    Raise (SystemExit "Windows cuda backend build is only available for x64").
Proof.
  intros Ha. unfold windows_backend_cache_vars.
  by apply String.eqb_neq in Ha as ->.
Qed.

(** C2: off [x64] the linux and the windows resolver reject the [cuda]
    backend, and so do the two entry points: they raise without having run
    any command, and when the checks before the resolution pass (the host
    system, the llama.cpp submodule, and on linux the clean of the build
    directory) the exception is the resolver's. *)
Theorem cuda_backend_needs_x64 h arch :
  arch <> "x64" ->
  linux_backend_cache_vars arch "cuda" =
    Raise (SystemExit "Linux cuda backend build is only available for x64") /\
  windows_backend_cache_vars arch "cuda" =
    Raise (SystemExit "Windows cuda backend build is only available for x64") /\
  (forall args w,
     la_backend args = "cuda" -> linux_arch h args w = (Ok arch, w) ->
     exists e w',
       build_linux h args w = (Raise e, w') /\
       commands (w_log w') = commands (w_log w) /\
       (Str.lower (platform_system h) = "linux" ->
        is_file (w_fs w) (THIRD_PARTY_DIR h ++ ["llama.cpp"; "CMakeLists.txt"]) = true ->
        forall d w1,
          clean_build_dir h ("linux-" +:+ arch +:+ "-full") (la_clean args) w = (Ok d, w1) ->
          e = SystemExit "Linux cuda backend build is only available for x64" /\
          w' = w1)) /\
  (forall args w,
     wa_backend args = "cuda" -> wa_arch args = arch ->
     exists e,
       build_windows h args w = (Raise e, w) /\
       (Str.lower (platform_system h) = "windows" ->
        is_file (w_fs w) (THIRD_PARTY_DIR h ++ ["llama.cpp"; "CMakeLists.txt"]) = true ->
        e = SystemExit "Windows cuda backend build is only available for x64")).
Proof.
  intros Ha. split; [by apply linux_cuda_rejected|].
  split; [by apply windows_cuda_rejected|]. split.
  - intros args w Hb Harch. unfold build_linux.
    rewrite bind_unfold, when_fail.
    destruct (negb _) eqn:Hsys.
    { eexists _, w. split; [done|]. split; [done|].
      intros Hl. by rewrite Hl in Hsys. }
    rewrite bind_unfold, ensure_submodule_unfold.
    destruct (is_file _ _) eqn:Hsub;
      [|eexists _, w; split; [done|]; split; [done|]; by intros].
    rewrite bind_unfold, Harch, bind_unfold.
    pose proof (clean_build_dir_commands h ("linux-" +:+ arch +:+ "-full")
                  (la_clean args) w) as Hcmds.
    destruct (clean_build_dir _ _ _ w) as [[d|e] w1] eqn:Hclean.
    + rewrite bind_unfold. unfold lift at 1.
      rewrite Hb, (linux_cuda_rejected arch Ha).
      eexists _, w1. split; [done|]. split; [done|].
      intros _ _ d' w1' ?. by simplify_eq.
    + eexists e, w1. split; [done|]. split; [done|].
      intros _ _ d' w1' ?. by simplify_eq.
  - intros args w Hb Harch. unfold build_windows.
    rewrite bind_unfold, when_fail.
    destruct (negb _) eqn:Hsys.
    { eexists. split; [done|]. intros Hl. by rewrite Hl in Hsys. }
    rewrite bind_unfold, ensure_submodule_unfold.
    destruct (is_file _ _) eqn:Hsub; [|by eexists; split].
    rewrite bind_unfold. unfold lift at 1.
    rewrite Hb, Harch, (windows_cuda_rejected arch Ha).
    by eexists; split.
Qed.

(** ** The ZenDNN patch in the linux build *)

Lemma linux_zendnn_off arch backend cv :
  linux_backend_cache_vars arch backend = Ok cv ->
  dict_get cv "GGML_ZENDNN" = Some "OFF".
Proof.
  unfold linux_backend_cache_vars.
  repeat match goal with |- context [if ?b then _ else _] => destruct b end;
    intros [= <-]; reflexivity.
Qed.

Lemma emits_build_linux_guarded_false h preset arch jobs extra_args :
  emits not_write (build_linux_guarded h false preset arch jobs extra_args).
Proof.
  unfold build_linux_guarded. apply emits_try_finally; [|apply emits_ret].
  apply emits_bind.
  - eapply emits_weaken; [apply run_event_not_write | auto with emits].
  - intros build_dir.
    eapply emits_weaken; [apply fs_event_not_write | auto with emits].
Qed.

(** The patch decision of [build_linux], taken with the cache variables the
    linux resolver returns, never applies the patch. *)
Lemma linux_patch_decision h arch cv w :
  dict_get cv "GGML_ZENDNN" = Some "OFF" ->
  (if String.eqb arch "x64"
   then
     zendnn ← lift (getitem cv "GGML_ZENDNN");
     if String.eqb zendnn "ON" then patch_llama_zendnn_install_target h
     else mret false
   else mret false) w = (Ok false, w).
Proof.
  intros Hz. destruct (String.eqb arch "x64"); [|done].
  rewrite bind_unfold. unfold lift, getitem. by rewrite Hz.
Qed.

(** C9: the linux resolver binds [GGML_ZENDNN] to [OFF] whenever it
    returns, the patch decision of [build_linux] therefore yields false, and
    no linux build writes a text file: the ZenDNN patch is never applied. *)
Theorem zendnn_never_patched_on_linux h :
  (forall arch backend cv,
     linux_backend_cache_vars arch backend = Ok cv ->
     dict_get cv "GGML_ZENDNN" = Some "OFF" /\
     (String.eqb arch "x64" &&
      String.eqb (default "" (dict_get cv "GGML_ZENDNN")) "ON") = false) /\
  (forall args, emits not_write (build_linux h args)).
Proof.
  split.
  - intros arch backend cv Hcv. pose proof (linux_zendnn_off _ _ _ Hcv) as Hz.
    split; [done|]. rewrite Hz. apply andb_false_r.
  - intros args. unfold build_linux.
    apply emits_bind; [solve_emits | intros _].
    apply emits_bind; [solve_emits | intros _].
    apply emits_bind; [solve_emits | intros arch].
    apply emits_bind; [|intros _].
    { eapply emits_weaken; [apply fs_event_not_write | auto with emits]. }
    apply emits_bind_post; [solve_emits | intros w0 cv w0' Hcv].
    unfold lift in Hcv. injection Hcv as Hcv _.
    apply linux_zendnn_off in Hcv.
    apply emits_bind; [solve_emits | intros host_arch].
    apply emits_bind; [solve_emits | intros extra_args].
    apply emits_bind; [solve_emits | intros cuda].
    apply emits_bind; [solve_emits | intros _].
    apply emits_bind_post.
    + intros w. exists []. rewrite linux_patch_decision by done.
      by rewrite app_nil_r.
    + intros w applied w' Hd. rewrite linux_patch_decision in Hd by done.
      injection Hd as <- _. apply emits_build_linux_guarded_false.
Qed.

Lemma zendnn_never_patched_on_linux_witness :
  linux_backend_cache_vars "x64" "full" =
    Ok [("GGML_VULKAN", "ON"); ("GGML_OPENCL", "OFF"); ("GGML_CUDA", "ON");
        ("GGML_BLAS", "ON"); ("GGML_ZENDNN", "OFF"); ("GGML_CPU_KLEIDIAI", "OFF");
        ("GGML_BLAS_VENDOR", "OpenBLAS")] /\
  dict_get [("GGML_VULKAN", "ON"); ("GGML_OPENCL", "OFF"); ("GGML_CUDA", "ON");
            ("GGML_BLAS", "ON"); ("GGML_ZENDNN", "OFF"); ("GGML_CPU_KLEIDIAI", "OFF");
            ("GGML_BLAS_VENDOR", "OpenBLAS")] "GGML_ZENDNN" = Some "OFF".
Proof.
  assert (linux_backend_cache_vars "x64" "full" =
    Ok [("GGML_VULKAN", "ON"); ("GGML_OPENCL", "OFF"); ("GGML_CUDA", "ON");
        ("GGML_BLAS", "ON"); ("GGML_ZENDNN", "OFF"); ("GGML_CPU_KLEIDIAI", "OFF");
        ("GGML_BLAS_VENDOR", "OpenBLAS")]) as H by reflexivity.
  split; [exact H|].
  exact (proj1 (proj1 (zendnn_never_patched_on_linux sample_host)
                      "x64" "full" _ H)).
Defined.

(** ** The guarded build step *)

Lemma zendnn_new_purged :
  Str.incomparable_from 0 zendnn_old zendnn_new = true /\
  Str.incomparable_from 1 zendnn_new zendnn_old = true.
Proof. split; vm_compute; reflexivity. Qed.

(** The restore always returns, and leaves no patched string in the file. *)
Lemma restore_outcome h w :
  exists w2,
    restore_llama_zendnn_install_target h w = (Ok tt, w2) /\
    forall text,
      w_fs w2 !! zendnn_cmake_file h = Some (File text) ->
      Str.contains text zendnn_new = false.
Proof.
  destruct w as [fs log].
  destruct (fs !! zendnn_cmake_file h) as [[text|]|] eqn:Hf.
  - destruct (Str.contains text zendnn_new) eqn:Hn.
    + eexists. split; [by eapply restore_reverts|].
      cbn [w_fs]. intros text'. rewrite lookup_insert_eq. intros Ht.
      replace text' with (Str.replace text zendnn_new zendnn_old) by congruence.
      apply StrFacts.replace_purges;
        [apply zendnn_new_nonempty | apply zendnn_new_purged..].
    + exists (World fs log). split; [by eapply restore_unpatched|].
      cbn [w_fs]. intros text' ?. by simplify_eq.
  - exists (World fs log). split.
    + apply restore_no_file. unfold is_file. by rewrite Hf.
    + cbn [w_fs]. intros text' ?. by simplify_eq.
  - exists (World fs log). split.
    + apply restore_no_file. unfold is_file. by rewrite Hf.
    + cbn [w_fs]. intros text' ?. by simplify_eq.
Qed.


(** ** The order on paths *)

Lemma path_le_refl p : path_le p p.
Proof.
  unfold path_le. induction p as [|a p IH]; [done|].
  simpl. by rewrite decide_True.
Qed.

#[global] Instance path_le_trans : Transitive path_le.
Proof.
  unfold path_le. intros p. induction p as [|a p IH]; intros q r; [done|].
  destruct q as [|b q]; [done|]. destruct r as [|c r]; [done|]. simpl.
  destruct (decide (a = b)) as [->|Hab], (decide (b = c)) as [->|Hbc];
    rewrite ?decide_True by done; rewrite ?decide_False by done; eauto.
  rewrite !bool_decide_eq_true. intros H1 H2.
  destruct (decide (a = c)) as [->|Hac].
  - destruct Hab. by apply (anti_symm String.le).
  - apply bool_decide_eq_true. by etrans.
Qed.

#[global] Instance path_le_total : Total path_le.
Proof.
  unfold path_le. intros p. induction p as [|a p IH]; intros q; [by left|].
  destruct q as [|b q]; [by right|]. simpl.
  destruct (decide (a = b)) as [->|Hab].
  - rewrite decide_True by done. apply IH.
  - rewrite decide_False by done. rewrite !bool_decide_eq_true.
    apply (total String.le).
Qed.

(** ** Collecting the runtime libraries *)

Section Collect.
Variable fs : fsys.

Lemma elem_of_rglob p q :
  q ∈ rglob fs p <->
  fs !! p = Some Dir /\ is_Some (fs !! q) /\ p `prefix_of` q /\ q <> p.
Proof.
  unfold rglob, is_dir. destruct (fs !! p) as [[?|]|] eqn:Hp;
    try (rewrite elem_of_nil; naive_solver).
  rewrite list_elem_of_filter, list_elem_of_fmap. split.
  - intros [[Hpre Hne] [[q' x] [-> Hx%elem_of_map_to_list]]]. naive_solver.
  - intros (_ & [x Hx] & Hpre & Hne). split; [done|].
    exists (q, x). split; [done | by apply elem_of_map_to_list].
Qed.

Lemma select_libraries_snoc l x :
  select_libraries fs (l ++ [x]) =
  if is_runtime_library fs x then <[name x := x]> (select_libraries fs l)
  else select_libraries fs l.
Proof. unfold select_libraries. by rewrite foldl_snoc. Qed.

(** Every entry of [selected] is a qualifying path of the list, stored
    under its own name, and in a sorted list it comes last among the
    qualifying paths of that name. *)
Lemma select_libraries_sound l n p :
  StronglySorted path_le l ->
  select_libraries fs l !! n = Some p ->
  p ∈ l /\ is_runtime_library fs p = true /\ name p = n /\
  forall q, q ∈ l -> is_runtime_library fs q = true -> name q = n -> path_le q p.
Proof.
  revert n p. induction l as [|x l IH] using rev_ind; intros n p Hs H.
  { unfold select_libraries in H. simpl in H. by rewrite lookup_empty in H. }
  apply StronglySorted_app in Hs as (Hlx & Hl & _).
  rewrite select_libraries_snoc in H.
  destruct (is_runtime_library fs x) eqn:Hx.
  - destruct (decide (name x = n)) as [<-|Hn].
    + rewrite lookup_insert_eq in H. injection H as <-.
      split; [set_solver|]. split; [done|]. split; [done|].
      intros q [Hq| ->%list_elem_of_singleton]%elem_of_app _ _.
      * apply Hlx; set_solver.
      * apply path_le_refl.
    + rewrite lookup_insert_ne in H by done.
      destruct (IH _ _ Hl H) as (Hp & Hq & Hnp & Hmax).
      split; [set_solver|]. split; [done|]. split; [done|].
      intros q [Hql| ->%list_elem_of_singleton]%elem_of_app ? ?; [eauto | done].
  - destruct (IH _ _ Hl H) as (Hp & Hq & Hnp & Hmax).
    split; [set_solver|]. split; [done|]. split; [done|].
    intros q [Hql| ->%list_elem_of_singleton]%elem_of_app ? ?; [eauto | congruence].
Qed.

(** Every qualifying path of the list has an entry under its name. *)
Lemma select_libraries_complete l q :
  q ∈ l -> is_runtime_library fs q = true ->
  is_Some (select_libraries fs l !! name q).
Proof.
  induction l as [|x l IH] using rev_ind; [by intros ?%elem_of_nil|].
  intros [Hq| ->%list_elem_of_singleton]%elem_of_app Hr;
    rewrite select_libraries_snoc.
  - destruct (is_runtime_library fs x); [|by apply IH].
    destruct (decide (name x = name q)) as [->|Hn].
    + rewrite lookup_insert_eq. eauto.
    + rewrite lookup_insert_ne by done. by apply IH.
  - rewrite Hr, lookup_insert_eq. eauto.
Qed.

Lemma select_libraries_none l :
  (forall p, p ∈ l -> is_runtime_library fs p = false) ->
  select_libraries fs l = ∅.
Proof.
  induction l as [|x l IH] using rev_ind; [done|]. intros H.
  rewrite select_libraries_snoc, H by set_solver. apply IH. set_solver.
Qed.

(** The list comprehension over the sorted keys. *)
Lemma sorted_values_names (selected : gmap string path) :
  (forall n p, selected !! n = Some p -> name p = n) ->
  name <$> omap (fun k => selected !! k)
                (merge_sort String.le (map_to_list selected).*1) =
  merge_sort String.le (map_to_list selected).*1.
Proof.
  intros Hname.
  assert (forall k, k ∈ merge_sort String.le (map_to_list selected).*1 ->
                    is_Some (selected !! k)) as Hdom.
  { intros k. rewrite merge_sort_Permutation, list_elem_of_fmap.
    intros [[k' p] [-> Hp%elem_of_map_to_list]]. eauto. }
  induction (merge_sort String.le (map_to_list selected).*1) as [|k ks IH];
    [done|].
  destruct (Hdom k) as [p Hp]; [set_solver|].
  cbn [omap list_omap]. rewrite Hp. cbn [fmap list_fmap].
  rewrite (Hname _ _ Hp). f_equal. apply IH. set_solver.
Qed.

Lemma elem_of_sorted_values (selected : gmap string path) p :
  p ∈ omap (fun k => selected !! k)
           (merge_sort String.le (map_to_list selected).*1) <->
  exists n, selected !! n = Some p.
Proof.
  rewrite list_elem_of_omap. split.
  - intros (n & _ & Hn). eauto.
  - intros [n Hn]. exists n. split; [|done].
    rewrite merge_sort_Permutation, list_elem_of_fmap.
    exists (n, p). split; [done | by apply elem_of_map_to_list].
Qed.

End Collect.

Lemma collect_runtime_libraries_unfold build_dir w :
  collect_runtime_libraries build_dir w =
  let selected :=
    select_libraries (w_fs w) (merge_sort path_le (rglob (w_fs w) build_dir)) in
  if decide (selected = ∅)
  then (Raise (SystemExit ("No runtime libraries found under " +:+ path_str build_dir)), w)
  else (Ok (omap (fun k => selected !! k)
                 (merge_sort String.le (map_to_list selected).*1)), w).
Proof.
  unfold collect_runtime_libraries. rewrite bind_unfold.
  cbv beta iota zeta delta [get_fs]. by destruct (decide _).
Qed.

Lemma is_runtime_library_spec fs p :
  is_runtime_library fs p = true <->
  is_file fs p = true /\
  (Str.endswith (Str.lower (name p)) ".dll" = true \/
   Str.endswith (Str.lower (name p)) ".dylib" = true \/
   Str.endswith (Str.lower (name p)) ".so" = true) /\
  exists prefix,
    prefix ∈ ["llamadart"; "llama"; "ggml"; "mtmd";
              "libllamadart"; "libllama"; "libggml"; "libmtmd"] /\
    Str.startswith (Str.lower (name p)) prefix = true.
Proof.
  unfold is_runtime_library. destruct (is_file fs p); [|naive_solver].
  cbn [negb].
  destruct (Str.endswith _ ".dll" || Str.endswith _ ".dylib" || Str.endswith _ ".so")
    eqn:Hext; cbn [negb].
  - rewrite !orb_true_iff in Hext. rewrite existsb_exists.
    setoid_rewrite <- list_elem_of_In. naive_solver.
  - rewrite !orb_false_iff in Hext. destruct Hext as [[? ?] ?].
    split; [done|]. intros (_ & [He|[He|He]] & _); congruence.
Qed.




(** The versioned aliases of the sample tree do not qualify, the plain
    names do. *)
Example versioned_aliases_rejected :
  is_runtime_library sample_tree (sample_build_dir ++ ["libggml.so.0"]) = false /\
  is_runtime_library sample_tree (sample_build_dir ++ ["libggml.so.0.0.0"]) = false /\
  is_runtime_library sample_tree (sample_build_dir ++ ["libggml.so"]) = true /\
  is_runtime_library sample_tree (sample_build_dir ++ ["CMakeCache.txt"]) = false.
Proof. repeat split; vm_compute; reflexivity. Qed.

(** C10: when nothing below the build directory qualifies, the copy raises
    the no-libraries error and the world, the destination directory
    included, is as it was. *)
Theorem copy_runtime_libraries_nothing_found h build_dir out_dir w :
  (forall p, p ∈ rglob (w_fs w) build_dir -> is_runtime_library (w_fs w) p = false) ->
  copy_runtime_libraries h build_dir out_dir w =
    (Raise (SystemExit ("No runtime libraries found under " +:+ path_str build_dir)), w).
Proof.
  intros Hnone. unfold copy_runtime_libraries.
  rewrite bind_unfold, collect_runtime_libraries_unfold. cbv zeta.
  rewrite select_libraries_none; [by rewrite decide_True|].
  intros p. rewrite merge_sort_Permutation. apply Hnone.
Qed.

Lemma copy_runtime_libraries_nothing_found_witness :
  copy_runtime_libraries sample_host sample_build_dir sample_out_dir
    (World sample_bare_tree []) =
  (Raise (SystemExit "No runtime libraries found under /repo/build/linux-x64-full"),
   World sample_bare_tree []).
Proof.
  apply (copy_runtime_libraries_nothing_found sample_host sample_build_dir
           sample_out_dir (World sample_bare_tree [])).
  intros p Hp. cbn [w_fs] in *. vm_compute in Hp.
  apply list_elem_of_singleton in Hp as ->. vm_compute. reflexivity.
Defined.

(** ** Cross compilation in the linux build *)

Lemma emits_any {A} (P : event -> Prop) (m : M A) : emits P m -> emits any_event m.
Proof. apply emits_weaken. by intros. Qed.

Lemma starts_with_bind {A B} e (m : M A) (f : A -> M B) :
  starts_with e m -> (forall a, emits any_event (f a)) -> starts_with e (m ≫= f).
Proof.
  intros Hm Hf w. rewrite bind_unfold. destruct (Hm w) as (d1 & E1).
  destruct (m w) as [[a|e'] w']; simpl in *; [|by exists d1].
  destruct (Hf a w') as (d2 & E2 & _). exists (d1 ++ d2).
  by rewrite E2, E1, <- app_assoc.
Qed.

Lemma starts_with_try_finally {A} e (body : M A) fin :
  starts_with e body -> emits any_event fin -> starts_with e (try_finally body fin).
Proof.
  intros Hb Hf w. unfold try_finally. destruct (Hb w) as (d1 & E1).
  destruct (body w) as [r w1]. destruct (Hf w1) as (d2 & E2 & _).
  exists (d1 ++ d2). simpl in E1.
  replace (w_log w ++ e :: d1 ++ d2) with ((w_log w ++ e :: d1) ++ d2)
    by (by rewrite <- app_assoc).
  rewrite <- E1, <- E2. by destruct (fin w1) as [[[]|?] w2].
Qed.

Lemma starts_with_run h cmd env {A} (k : M A) :
  emits any_event k ->
  starts_with (Run cmd (effective_env h env)) (run h cmd env ≫= fun _ => k).
Proof.
  intros Hk w. rewrite bind_unfold. unfold run.
  destruct (tool h cmd _ (w_fs w)) as [returncode fs'].
  destruct (returncode =? 0)%Z; [|by exists []].
  destruct (Hk (World fs' (w_log w ++ [Run cmd (effective_env h env)])))
    as (delta & E & _).
  exists delta. rewrite E. cbn [w_log]. by rewrite <- app_assoc.
Qed.

(** The guarded step begins by running the configure command with the
    extra arguments it was given. *)
Lemma build_linux_guarded_starts h applied preset arch jobs extra_args :
  starts_with (Run (["cmake"; "--preset"; preset] ++ extra_args) (effective_env h None))
              (build_linux_guarded h applied preset arch jobs extra_args).
Proof.
  unfold build_linux_guarded. apply starts_with_try_finally.
  - apply starts_with_bind.
    + unfold configure_and_build. apply starts_with_run.
      apply emits_bind; [|intros ?; apply emits_lift].
      eapply emits_any, emits_run.
    + intros build_dir. eapply emits_any, emits_copy_runtime_libraries.
  - apply emits_when. eapply emits_any, emits_restore.
Qed.

Lemma detect_linux_arch_at h w w' r :
  detect_linux_arch h w = (r, w) -> detect_linux_arch h w' = (r, w').
Proof.
  unfold detect_linux_arch.
  repeat match goal with |- context [if ?b then _ else _] => destruct b end;
    by intros [= <-].
Qed.

Lemma linux_cuda_switch arch backend cv :
  linux_backend_cache_vars arch backend = Ok cv ->
  dict_get cv "GGML_CUDA" = Some "ON" \/ dict_get cv "GGML_CUDA" = Some "OFF".
Proof.
  unfold linux_backend_cache_vars.
  repeat match goal with |- context [if ?b then _ else _] => destruct b end;
    intros [= <-]; auto.
Qed.

(** C8, as the claim states it: whenever the target architecture differs
    from the host's and no cross compiler is on the PATH, the build fails
    before it runs the tool.  An [x64] build on an [arm64] host runs the
    configure and the build command, with no cross-toolchain argument. *)
Lemma build_linux_x64_on_arm64_host :
  let args := LinuxArgs (Some "x64") "vulkan" false None in
  let w := World sample_tree [] in
  linux_arch sample_arm_host args w = (Ok "x64", w) /\
  detect_linux_arch sample_arm_host w = (Ok "arm64", w) /\
  which sample_arm_host "aarch64-linux-gnu-gcc" = None /\
  commands (w_log (build_linux sample_arm_host args w).2) =
    [ ["cmake"; "--preset"; "linux-x64-full";
       "-DGGML_VULKAN=ON"; "-DGGML_OPENCL=OFF"; "-DGGML_CUDA=OFF";
       "-DGGML_BLAS=OFF"; "-DGGML_ZENDNN=OFF"; "-DGGML_CPU_KLEIDIAI=OFF"];
      ["cmake"; "--build"; "--preset"; "linux-x64-full"] ] /\
  ~ (forall h args w arch host_arch,
       linux_arch h args w = (Ok arch, w) ->
       detect_linux_arch h w = (Ok host_arch, w) ->
       arch <> host_arch ->
       truthy (which h "aarch64-linux-gnu-gcc") = false ->
       commands (w_log (build_linux h args w).2) = commands (w_log w)).
Proof.
  intros args w.
  assert (commands (w_log (build_linux sample_arm_host args w).2) =
    [ ["cmake"; "--preset"; "linux-x64-full";
       "-DGGML_VULKAN=ON"; "-DGGML_OPENCL=OFF"; "-DGGML_CUDA=OFF";
       "-DGGML_BLAS=OFF"; "-DGGML_ZENDNN=OFF"; "-DGGML_CPU_KLEIDIAI=OFF"];
      ["cmake"; "--build"; "--preset"; "linux-x64-full"] ]) as Hrun
    by (vm_compute; reflexivity).
  split; [reflexivity|]. split; [reflexivity|]. split; [reflexivity|].
  split; [exact Hrun|]. intros Hclaim.
  specialize (Hclaim sample_arm_host args w "x64" "arm64"
                eq_refl eq_refl ltac:(discriminate) eq_refl).
  rewrite Hrun in Hclaim. discriminate Hclaim.
Qed.

(** C8, amended: the cross toolchain is for an [arm64] target on a host
    that is not [arm64].  There, once the checks before it pass, the build
    raises the cross-compiler error without having run a command when
    either compiler is missing from the PATH; and with both found (and
    [nvcc] where CUDA is on) the first command run is the configure command
    with the cache arguments followed by the two compilers and the target
    system and processor. *)
Theorem linux_cross_compile h args w host_arch d w1 cv :
  Str.lower (platform_system h) = "linux" ->
  is_file (w_fs w) (THIRD_PARTY_DIR h ++ ["llama.cpp"; "CMakeLists.txt"]) = true ->
  linux_arch h args w = (Ok "arm64", w) ->
  detect_linux_arch h w = (Ok host_arch, w) ->
  host_arch <> "arm64" ->
  clean_build_dir h "linux-arm64-full" (la_clean args) w = (Ok d, w1) ->
  linux_backend_cache_vars "arm64" (la_backend args) = Ok cv ->
  (truthy (which h "aarch64-linux-gnu-gcc")
   && truthy (which h "aarch64-linux-gnu-g++") = false ->
   build_linux h args w =
     (Raise (SystemExit
        "Cross compiler not found. Install aarch64-linux-gnu-gcc and aarch64-linux-gnu-g++"),
      w1) /\
   commands (w_log w1) = commands (w_log w)) /\
  (forall cc cxx,
     which h "aarch64-linux-gnu-gcc" = Some cc -> cc <> "" ->
     which h "aarch64-linux-gnu-g++" = Some cxx -> cxx <> "" ->
     (dict_get cv "GGML_CUDA" = Some "ON" ->
      truthy (which h "nvcc") || truthy (which h "nvcc.exe") = true) ->
     exists rest,
       commands (w_log (build_linux h args w).2) =
       commands (w_log w) ++
       (["cmake"; "--preset"; "linux-arm64-full"] ++ cmake_cache_args cv ++
        ["-DCMAKE_C_COMPILER=" +:+ cc;
         "-DCMAKE_CXX_COMPILER=" +:+ cxx;
         "-DCMAKE_SYSTEM_NAME=Linux";
         "-DCMAKE_SYSTEM_PROCESSOR=aarch64"]) :: rest).
Proof.
  intros Hsys Hsub Harch Hhost Hne Hclean Hcv.
  pose proof (clean_build_dir_commands h "linux-arm64-full" (la_clean args) w) as Hcmds.
  rewrite Hclean in Hcmds. cbn [snd] in Hcmds.
  apply String.eqb_neq in Hne.
  assert (build_linux h args w =
            (extra_args ←
               (if String.eqb "arm64" "arm64" && negb (String.eqb host_arch "arm64")
                then
                  match which h "aarch64-linux-gnu-gcc", which h "aarch64-linux-gnu-g++" with
                  | Some (String _ _ as cc), Some (String _ _ as cxx) =>
                      mret (cmake_cache_args cv ++
                            ["-DCMAKE_C_COMPILER=" +:+ cc;
                             "-DCMAKE_CXX_COMPILER=" +:+ cxx;
                             "-DCMAKE_SYSTEM_NAME=Linux";
                             "-DCMAKE_SYSTEM_PROCESSOR=aarch64"])
                  | _, _ =>
                      fail "Cross compiler not found. Install aarch64-linux-gnu-gcc and aarch64-linux-gnu-g++"
                  end
                else mret (cmake_cache_args cv));
             cuda ← lift (getitem cv "GGML_CUDA");
             when (String.eqb cuda "ON"
                   && negb (truthy (which h "nvcc") || truthy (which h "nvcc.exe")))
                  (fail "Linux CUDA backend build requires CUDA (nvcc not found in PATH)");;
             zendnn_patch_applied ←
               (if String.eqb "arm64" "x64"
                then
                  zendnn ← lift (getitem cv "GGML_ZENDNN");
                  if String.eqb zendnn "ON" then patch_llama_zendnn_install_target h
                  else mret false
                else mret false);
             build_linux_guarded h zendnn_patch_applied "linux-arm64-full" "arm64"
               (la_jobs args) extra_args) w1) as Hprefix.
  { unfold build_linux.
    rewrite bind_unfold, when_fail, Hsys. cbn [negb String.eqb Ascii.eqb Bool.eqb].
    rewrite bind_unfold, ensure_submodule_unfold, Hsub.
    rewrite bind_unfold, Harch.
    change ("linux-" +:+ "arm64" +:+ "-full") with "linux-arm64-full".
    rewrite bind_unfold, Hclean.
    rewrite bind_unfold. unfold lift at 1. rewrite Hcv.
    rewrite bind_unfold, (detect_linux_arch_at h w w1 _ Hhost). done. }
  rewrite String.eqb_refl, Hne in Hprefix. cbn [andb negb] in Hprefix.
  split.
  - intros Hmissing. split; [|done]. rewrite Hprefix.
    destruct (which h "aarch64-linux-gnu-gcc") as [[|? ?]|];
      destruct (which h "aarch64-linux-gnu-g++") as [[|? ?]|];
      try done.
  - intros cc cxx Hcc Hcc' Hcxx Hcxx' Hnvcc.
    rewrite Hprefix, Hcc, Hcxx.
    destruct cc as [|c1 cc]; [done|]. destruct cxx as [|c2 cxx]; [done|].
    rewrite bind_unfold. cbv beta iota delta [mret M_ret].
    rewrite bind_unfold. unfold lift at 1, getitem.
    destruct (linux_cuda_switch _ _ _ Hcv) as [Hon|Hoff].
    + rewrite Hon. rewrite bind_unfold, when_fail, (Hnvcc Hon).
      cbn [negb andb String.eqb Ascii.eqb Bool.eqb].
      rewrite bind_unfold. cbv beta iota delta [mret M_ret].
      destruct (build_linux_guarded_starts h false "linux-arm64-full" "arm64"
                  (la_jobs args)
                  (cmake_cache_args cv ++
                   ["-DCMAKE_C_COMPILER=" +:+ String c1 cc;
                    "-DCMAKE_CXX_COMPILER=" +:+ String c2 cxx;
                    "-DCMAKE_SYSTEM_NAME=Linux";
                    "-DCMAKE_SYSTEM_PROCESSOR=aarch64"]) w1) as [delta Hd].
      exists (commands delta). rewrite Hd, commands_app, Hcmds. done.
    + rewrite Hoff. rewrite bind_unfold, when_fail.
      cbn [negb andb String.eqb Ascii.eqb Bool.eqb].
      rewrite bind_unfold. cbv beta iota delta [mret M_ret].
      destruct (build_linux_guarded_starts h false "linux-arm64-full" "arm64"
                  (la_jobs args)
                  (cmake_cache_args cv ++
                   ["-DCMAKE_C_COMPILER=" +:+ String c1 cc;
                    "-DCMAKE_CXX_COMPILER=" +:+ String c2 cxx;
                    "-DCMAKE_SYSTEM_NAME=Linux";
                    "-DCMAKE_SYSTEM_PROCESSOR=aarch64"]) w1) as [delta Hd].
      exists (commands delta). rewrite Hd, commands_app, Hcmds. done.
Qed.

(** ** Resetting the destination and copying *)

Lemma elem_of_ancestors p q : q ∈ ancestors p <-> q `prefix_of` p /\ q <> [].
Proof.
  unfold ancestors. rewrite list_elem_of_fmap. split.
  - intros (n & -> & Hn%elem_of_seq). split; [apply prefix_take|].
    intros Ht%(f_equal length). rewrite length_take in Ht. simpl in Ht. lia.
  - intros [[k ->] Hq]. exists (length q). split.
    + by rewrite take_app_length.
    + apply elem_of_seq. rewrite length_app. destruct q; [done | simpl; lia].
Qed.

Lemma rmtree_lookup (fs : fsys) p q :
  filter (fun kv : path * node => ~ p `prefix_of` kv.1) fs !! q =
  if decide (p `prefix_of` q) then None else fs !! q.
Proof.
  destruct (decide (p `prefix_of` q)) as [Hp|Hp].
  - apply map_lookup_filter_None. right. intros x _ Hn. by apply Hn.
  - destruct (fs !! q) as [x|] eqn:Hq.
    + by apply map_lookup_filter_Some.
    + apply map_lookup_filter_None. by left.
Qed.

Lemma mkdir_fold l : forall fs : fsys,
  (forall q, q ∈ l -> is_file fs q = false) ->
  exists fs',
    foldl mkdir_step (Some fs) l = Some fs' /\
    (forall q, q ∈ l -> fs' !! q = Some Dir) /\
    (forall q, q ∉ l -> fs' !! q = fs !! q).
Proof.
  induction l as [|x l IH]; intros fs Hfiles.
  { exists fs. split; [done|]. split; [by intros q ?%elem_of_nil | done]. }
  assert (exists fs2,
            mkdir_step (Some fs) x = Some fs2 /\ fs2 !! x = Some Dir /\
            forall q, q <> x -> fs2 !! q = fs !! q) as (fs2 & Hstep & Hx & Hother).
  { pose proof (Hfiles x ltac:(left)) as Hf. unfold is_file in Hf.
    unfold mkdir_step. cbn [mbind option_bind].
    destruct (fs !! x) as [[data|]|] eqn:E; [done|..].
    - by exists fs.
    - exists (<[x := Dir]> fs). split; [done|].
      split; [apply lookup_insert_eq|]. intros q ?. by apply lookup_insert_ne. }
  destruct (IH fs2) as (fs' & Hfold & Hin & Hout).
  { intros q Hq. unfold is_file. destruct (decide (q = x)) as [->|Hne].
    - by rewrite Hx.
    - rewrite Hother by done. apply Hfiles. by right. }
  exists fs'. cbn [foldl]. rewrite Hstep. split; [done|]. split.
  - intros q [->|Hq]%elem_of_cons; [|by apply Hin].
    destruct (decide (x ∈ l)); [by apply Hin | by rewrite Hout].
  - intros q [Hne Hq]%not_elem_of_cons. by rewrite Hout, Hother.
Qed.

Lemma mkdir_parents_ok fs log p :
  (forall q, q ∈ ancestors p -> is_file fs q = false) ->
  exists fs',
    mkdir_parents p (World fs log) = (Ok tt, World fs' (log ++ [Mkdir p])) /\
    (forall q, q ∈ ancestors p -> fs' !! q = Some Dir) /\
    (forall q, q ∉ ancestors p -> fs' !! q = fs !! q).
Proof.
  intros Hfiles. destruct (mkdir_fold _ fs Hfiles) as (fs' & Hfold & Hin & Hout).
  exists fs'. split; [|done].
  unfold mkdir_parents. rewrite bind_unfold.
  cbv beta iota delta [get_fs w_fs]. by rewrite Hfold.
Qed.

(** On a path whose directories all exist, [mkdir] changes nothing. *)
Lemma mkdir_parents_present fs log p :
  (forall q, q ∈ ancestors p -> fs !! q = Some Dir) ->
  mkdir_parents p (World fs log) = (Ok tt, World fs (log ++ [Mkdir p])).
Proof.
  intros Hdirs. destruct (mkdir_parents_ok fs log p) as (fs' & -> & Hin & Hout).
  { intros q Hq. unfold is_file. by rewrite Hdirs. }
  do 2 f_equal. apply map_eq. intros q.
  destruct (decide (q ∈ ancestors p)); [by rewrite Hin, Hdirs | by apply Hout].
Qed.

Lemma reset_dir_ok fs log out_dir :
  out_dir <> [] ->
  (is_dir fs out_dir = true \/ forall q, out_dir `prefix_of` q -> fs !! q = None) ->
  (forall q, q `prefix_of` out_dir -> is_file fs q = false) ->
  exists fs1,
    reset_dir out_dir (World fs log) =
      (Ok tt, World fs1 (log ++ (if exists_ fs out_dir then [Rmtree out_dir] else [])
                             ++ [Mkdir out_dir])) /\
    (forall q, q ∈ ancestors out_dir -> fs1 !! q = Some Dir) /\
    (forall q, out_dir `prefix_of` q -> q <> out_dir -> fs1 !! q = None) /\
    (forall q, ~ out_dir `prefix_of` q -> ~ q `prefix_of` out_dir -> fs1 !! q = fs !! q).
Proof.
  intros Hne Hdest Hanc.
  assert (forall q, out_dir `prefix_of` q -> q <> out_dir -> q ∉ ancestors out_dir)
    as Hbelow.
  { intros q Hq Hqne [Hq' _]%elem_of_ancestors. destruct Hqne.
    by apply (anti_symm prefix). }
  unfold reset_dir. rewrite bind_unfold. cbv beta iota delta [get_fs w_fs].
  rewrite bind_unfold.
  destruct Hdest as [Hdir|Hnone].
  - assert (exists_ fs out_dir = true) as ->.
    { unfold is_dir, exists_ in *. by destruct (fs !! out_dir) as [[]|]. }
    cbn [when]. unfold rmtree. rewrite bind_unfold.
    cbv beta iota delta [get_fs w_fs]. rewrite Hdir.
    rewrite bind_unfold. cbv beta iota delta [put_fs emit w_fs w_log].
    destruct (mkdir_parents_ok
                (filter (fun kv : path * node => ~ out_dir `prefix_of` kv.1) fs)
                (log ++ [Rmtree out_dir]) out_dir) as (fs1 & Hmk & Hin & Hout).
    { intros q [Hq _]%elem_of_ancestors. unfold is_file.
      rewrite rmtree_lookup. case_decide; [done|]. by apply Hanc. }
    exists fs1. rewrite Hmk. split; [by rewrite <- app_assoc|].
    split; [done|]. split.
    + intros q Hq Hqne. rewrite Hout by auto. rewrite rmtree_lookup.
      by rewrite decide_True.
    + intros q Hq Hq'. rewrite Hout.
      * rewrite rmtree_lookup. by rewrite decide_False.
      * by intros [? _]%elem_of_ancestors.
  - assert (exists_ fs out_dir = false) as ->.
    { unfold exists_. by rewrite Hnone. }
    cbn [when]. cbv beta iota delta [mret M_ret].
    destruct (mkdir_parents_ok fs log out_dir) as (fs1 & Hmk & Hin & Hout).
    { intros q [Hq _]%elem_of_ancestors. by apply Hanc. }
    exists fs1. rewrite Hmk. split; [done|]. split; [done|]. split.
    + intros q Hq Hqne. rewrite Hout by auto. by apply Hnone.
    + intros q Hq Hq'. apply Hout. by intros [? _]%elem_of_ancestors.
Qed.

Lemma parent_snoc (p : path) x : parent (p ++ [x]) = p.
Proof. apply removelast_last. Qed.

Lemma name_snoc (p : path) x : name (p ++ [x]) = x.
Proof. apply last_last. Qed.

Lemma snoc_not_above (p q : path) x : q `prefix_of` p -> q <> p ++ [x].
Proof. intros Hq ->. by apply prefix_snoc_not in Hq. Qed.

(** One copy into a prepared destination directory. *)
Lemma copy_output_ok h fs log out_dir src data :
  out_dir <> [] ->
  REPO_ROOT h `prefix_of` out_dir ->
  (forall q, q ∈ ancestors out_dir -> fs !! q = Some Dir) ->
  fs !! src = Some (File data) ->
  ~ out_dir `prefix_of` src ->
  fs !! (out_dir ++ [name src]) = None ->
  copy_output h src (out_dir ++ [name src]) (World fs log) =
    (Ok tt,
     World (<[out_dir ++ [name src] := File data]> fs)
           (log ++ [Mkdir out_dir; Copy2 src (out_dir ++ [name src])])).
Proof.
  intros Hne Hroot Hdirs Hsrc Hout Hdst.
  assert (is_dir fs out_dir = true) as Hdir.
  { unfold is_dir. rewrite Hdirs; [done|]. by apply elem_of_ancestors. }
  unfold copy_output. rewrite bind_unfold, parent_snoc.
  rewrite mkdir_parents_present by done.
  rewrite bind_unfold. unfold copy2. rewrite bind_unfold.
  cbv beta iota zeta delta [get_fs w_fs]. rewrite Hsrc.
  assert (is_dir fs (out_dir ++ [name src]) = false) as Hnotdir
    by (unfold is_dir; by rewrite Hdst).
  rewrite Hnotdir.
  rewrite decide_False
    by (intros Heq; apply Hout; rewrite <- Heq; by apply prefix_app_r).
  rewrite Hnotdir, parent_snoc, Hdir, orb_true_r.
  rewrite bind_unfold. cbv beta iota delta [put_fs emit w_fs w_log].
  rewrite bind_unfold. unfold relative_to.
  rewrite decide_True by (by apply prefix_app_r).
  cbv beta iota delta [mret M_ret]. by rewrite <- app_assoc.
Qed.

Lemma copy_loop h out_dir libs : forall fs log,
  out_dir <> [] ->
  REPO_ROOT h `prefix_of` out_dir ->
  (forall q, q ∈ ancestors out_dir -> fs !! q = Some Dir) ->
  NoDup (name <$> libs) ->
  (forall src, src ∈ libs -> is_file fs src = true /\ ~ out_dir `prefix_of` src) ->
  (forall src, src ∈ libs -> fs !! (out_dir ++ [name src]) = None) ->
  exists fs',
    for_each libs (fun src => copy_output h src (out_dir ++ [name src])) (World fs log) =
      (Ok tt,
       World fs' (log ++ flat_map (fun src => [Mkdir out_dir;
                                                Copy2 src (out_dir ++ [name src])]) libs)) /\
    (forall src, src ∈ libs -> fs' !! (out_dir ++ [name src]) = fs !! src) /\
    (forall q, (forall src, src ∈ libs -> q <> out_dir ++ [name src]) ->
               fs' !! q = fs !! q).
Proof.
  induction libs as [|src libs IH]; intros fs log Hne Hroot Hdirs Hnd Hsrcs Hdsts.
  { exists fs. cbn [for_each flat_map]. rewrite app_nil_r.
    split; [done|]. split; [by intros ? ?%elem_of_nil | done]. }
  apply NoDup_cons in Hnd as [Hfresh Hnd].
  destruct (Hsrcs src ltac:(left)) as [Hfile Hout].
  unfold is_file in Hfile.
  destruct (fs !! src) as [[data|]|] eqn:Hsrc; try done.
  pose proof (Hdsts src ltac:(left)) as Hdst.
  assert (forall src', src' ∈ libs -> out_dir ++ [name src'] <> out_dir ++ [name src])
    as Hnames.
  { intros src' Hin Heq%app_inv_head. injection Heq as Heq.
    apply Hfresh. rewrite <- Heq. by apply list_elem_of_fmap_2. }
  destruct (IH (<[out_dir ++ [name src] := File data]> fs)
               (log ++ [Mkdir out_dir; Copy2 src (out_dir ++ [name src])]))
    as (fs' & Hloop & Hcopied & Hrest); try done.
  { intros q Hq. rewrite lookup_insert_ne; [by apply Hdirs|].
    apply elem_of_ancestors in Hq as [Hq _]. intros <-.
    by apply prefix_snoc_not in Hq. }
  { intros src' Hin. destruct (Hsrcs src' ltac:(by right)) as [Hf Ho].
    split; [|done]. unfold is_file. rewrite lookup_insert_ne; [done|].
    intros Heq. apply Ho. rewrite <- Heq. by apply prefix_app_r. }
  { intros src' Hin. rewrite lookup_insert_ne; [apply Hdsts; by right|].
    intros Heq. by apply (Hnames src' Hin). }
  exists fs'. cbn [for_each]. rewrite bind_unfold.
  rewrite (copy_output_ok h fs log out_dir src data) by done.
  rewrite Hloop. cbn [flat_map]. split; [by rewrite <- app_assoc|]. split.
  - intros src' [->|Hin]%elem_of_cons.
    + rewrite Hrest; [by rewrite lookup_insert_eq|].
      intros src' Hin Heq. by apply (Hnames src' Hin).
    + rewrite Hcopied by done. rewrite lookup_insert_ne; [done|].
      destruct (Hsrcs src' ltac:(by right)) as [_ Ho].
      intros Heq. apply Ho. rewrite <- Heq. by apply prefix_app_r.
  - intros q Hq. rewrite Hrest.
    + rewrite lookup_insert_ne; [done|]. intros <-.
      apply (Hq src); [by left | done].
    + intros src' Hin. apply Hq. by right.
Qed.

(** What the collector returns lies below the build directory and holds
    each name once. *)
Lemma collect_runtime_libraries_sound build_dir w libs w' :
  collect_runtime_libraries build_dir w = (Ok libs, w') ->
  w' = w /\
  (forall p, p ∈ libs -> build_dir `prefix_of` p /\ is_file (w_fs w) p = true) /\
  NoDup (name <$> libs).
Proof.
  rewrite collect_runtime_libraries_unfold. cbv zeta.
  set (sorted := merge_sort path_le (rglob (w_fs w) build_dir)).
  set (selected := select_libraries (w_fs w) sorted).
  assert (StronglySorted path_le sorted) as Hsorted
    by (apply StronglySorted_merge_sort; apply _).
  destruct (decide (selected = ∅)); [done|]. intros [= <- <-].
  split; [done|]. split.
  - intros p [key Hp]%elem_of_sorted_values.
    apply (select_libraries_sound _ _ _ _ Hsorted) in Hp as (Hin & Hr & _).
    unfold sorted in Hin. rewrite merge_sort_Permutation in Hin.
    apply elem_of_rglob in Hin as (_ & _ & Hpre & _).
    by apply is_runtime_library_spec in Hr as (Hf & _).
  - rewrite sorted_values_names.
    + rewrite merge_sort_Permutation. apply NoDup_fst_map_to_list.
    + intros key p Hp.
      by apply (select_libraries_sound _ _ _ _ Hsorted) in Hp as (_ & _ & ? & _).
Qed.

(** C6: with the collection done, a destination that is a directory (with
    whatever it holds) or is absent, apart from the build tree, below the
    repository root and with no regular file on its path, the copy returns;
    it removes the destination if it exists, creates it, and then copies
    each library; afterwards the destination is a directory that holds a
    copy of each collected library under its name and nothing else, and
    what lies apart from the destination and its path is as before. *)
Theorem copy_runtime_libraries_resets h build_dir out_dir w libs :
  collect_runtime_libraries build_dir w = (Ok libs, w) ->
  REPO_ROOT h `prefix_of` out_dir ->
  ~ out_dir `prefix_of` build_dir ->
  ~ build_dir `prefix_of` out_dir ->
  (is_dir (w_fs w) out_dir = true \/
   forall q, out_dir `prefix_of` q -> w_fs w !! q = None) ->
  (forall q, q `prefix_of` out_dir -> is_file (w_fs w) q = false) ->
  exists w',
    copy_runtime_libraries h build_dir out_dir w = (Ok tt, w') /\
    w_log w' =
      w_log w ++ (if exists_ (w_fs w) out_dir then [Rmtree out_dir] else [])
              ++ [Mkdir out_dir]
              ++ flat_map (fun src => [Mkdir out_dir;
                                       Copy2 src (out_dir ++ [name src])]) libs /\
    w_fs w' !! out_dir = Some Dir /\
    (forall src, src ∈ libs ->
       is_file (w_fs w) src = true /\
       w_fs w' !! (out_dir ++ [name src]) = w_fs w !! src) /\
    (forall q, out_dir `prefix_of` q -> q <> out_dir ->
               (forall src, src ∈ libs -> q <> out_dir ++ [name src]) ->
               w_fs w' !! q = None) /\
    (forall q, ~ out_dir `prefix_of` q -> ~ q `prefix_of` out_dir ->
               w_fs w' !! q = w_fs w !! q).
Proof.
  intros Hcollect Hroot Hob Hbo Hdest Hanc. destruct w as [fs log].
  cbn [w_fs w_log] in *.
  assert (out_dir <> []) as Hne by (intros ->; apply Hob, prefix_nil).
  destruct (collect_runtime_libraries_sound _ _ _ _ Hcollect)
    as (_ & Hlibs & Hnd). cbn [w_fs] in Hlibs.
  assert (forall src, src ∈ libs -> ~ out_dir `prefix_of` src) as Hapart.
  { intros src Hin Ho. destruct (Hlibs src Hin) as [Hb _].
    destruct (prefix_weak_total _ _ _ Ho Hb); done. }
  destruct (reset_dir_ok fs log out_dir Hne Hdest Hanc)
    as (fs1 & Hreset & Hdirs & Hbelow & Hside).
  assert (forall src, src ∈ libs -> fs1 !! src = fs !! src) as Hkept.
  { intros src Hin. apply Hside; [by apply Hapart|].
    intros Hp. destruct (Hlibs src Hin) as [_ Hf]. by rewrite Hanc in Hf. }
  destruct (copy_loop h out_dir libs fs1
              (log ++ (if exists_ fs out_dir then [Rmtree out_dir] else [])
                   ++ [Mkdir out_dir]))
    as (fs' & Hloop & Hcopied & Hrest); try done.
  { intros src Hin. split; [|by apply Hapart].
    unfold is_file. rewrite Hkept by done. by apply Hlibs. }
  { intros src Hin. apply Hbelow; [by apply prefix_app_r|].
    intros Heq. symmetry in Heq. by apply (snoc_not_above out_dir out_dir) in Heq. }
  exists (World fs'
            (log ++ (if exists_ fs out_dir then [Rmtree out_dir] else [])
                 ++ [Mkdir out_dir]
                 ++ flat_map (fun src => [Mkdir out_dir;
                                          Copy2 src (out_dir ++ [name src])]) libs)).
  cbn [w_fs w_log]. split.
  - unfold copy_runtime_libraries.
    rewrite bind_unfold, Hcollect, bind_unfold, Hreset, bind_unfold, Hloop.
    rewrite bind_unfold. unfold relative_to. rewrite decide_True by done.
    cbv beta iota delta [mret M_ret]. by rewrite <- !app_assoc.
  - split; [done|]. split; [|split; [|split]].
    + rewrite Hrest; [apply Hdirs; by apply elem_of_ancestors|].
      intros src _. by apply snoc_not_above.
    + intros src Hin. split; [by apply Hlibs|].
      by rewrite Hcopied, Hkept.
    + intros q Hq Hqne Hnot. rewrite Hrest by done. by apply Hbelow.
    + intros q Hq Hq'. rewrite Hrest; [by apply Hside|].
      intros src _ ->. apply Hq. by apply prefix_app_r.
Qed.

Lemma copy_runtime_libraries_resets_witness :
  exists w',
    copy_runtime_libraries sample_host sample_build_dir sample_out_dir
      (World sample_tree []) = (Ok tt, w') /\
    w_fs w' !! (sample_out_dir ++ ["libstale.so"]) = None /\
    w_fs w' !! (sample_out_dir ++ ["libggml.so"]) = Some (File "ggml") /\
    w_fs w' !! (sample_out_dir ++ ["libllama.dylib"]) = Some (File "llama").
Proof.
  destruct (copy_runtime_libraries_resets sample_host sample_build_dir sample_out_dir
              (World sample_tree [])
              [ ["repo"; "build"; "linux-x64-full"; "libggml.so"];
                ["repo"; "build"; "linux-x64-full"; "bin"; "libllama.dylib"] ])
    as (w' & Hrun & _ & _ & Hcopied & Hgone & _).
  - vm_compute. reflexivity.
  - by exists ["bin"; "linux"; "x64"].
  - intros [k Hk]. discriminate Hk.
  - intros [k Hk]. discriminate Hk.
  - left. vm_compute. reflexivity.
  - intros q [k Hk]. cbn [w_fs].
    assert (q = take (length q) sample_out_dir) as Hq
      by (by rewrite Hk, take_app_length).
    rewrite Hq.
    destruct (length q) as [|[|[|[|[|n]]]]]; vm_compute; reflexivity.
  - exists w'. split; [exact Hrun|]. split; [|split].
    + apply Hgone.
      * by apply prefix_app_r.
      * intros Heq. symmetry in Heq. by apply (snoc_not_above _ sample_out_dir) in Heq.
      * intros src Hin Heq%app_inv_head. injection Heq as Heq.
        apply elem_of_cons in Hin as [->|Hin]; [discriminate Heq|].
        apply list_elem_of_singleton in Hin as ->. discriminate Heq.
    + destruct (Hcopied ["repo"; "build"; "linux-x64-full"; "libggml.so"])
        as [_ Hc]; [by left|].
      change (name ["repo"; "build"; "linux-x64-full"; "libggml.so"])
        with "libggml.so" in Hc.
      rewrite Hc. vm_compute. reflexivity.
    + destruct (Hcopied ["repo"; "build"; "linux-x64-full"; "bin"; "libllama.dylib"])
        as [_ Hc]; [right; by left|].
      change (name ["repo"; "build"; "linux-x64-full"; "bin"; "libllama.dylib"])
        with "libllama.dylib" in Hc.
      rewrite Hc. vm_compute. reflexivity.
Defined.

Lemma cuda_backend_needs_x64_witness :
  "arm64" <> "x64" /\
  linux_backend_cache_vars "arm64" "cuda" =
    Raise (SystemExit "Linux cuda backend build is only available for x64") /\
  exists e,
    build_windows sample_host (WindowsArgs "arm64" "cuda" None false None)
      (World sample_tree []) = (Raise e, World sample_tree []).
Proof.
  assert ("arm64" <> "x64") as Hne by discriminate.
  destruct (cuda_backend_needs_x64 sample_host "arm64" Hne) as (Hl & _ & _ & Hw).
  split; [exact Hne|]. split; [exact Hl|].
  destruct (Hw (WindowsArgs "arm64" "cuda" None false None) (World sample_tree [])
              eq_refl eq_refl) as (e & He & _).
  exists e. exact He.
Defined.

Lemma configure_and_build_steps_witness :
  configure_and_build sample_failing_host "linux-x64-full" (Some 8%Z)
    (Some ["-DGGML_VULKAN=ON"]) None (World sample_tree []) =
  (Raise (CalledProcessError 2),
   World sample_tree
     [Run ["cmake"; "--preset"; "linux-x64-full"; "-DGGML_VULKAN=ON"]
          (effective_env sample_failing_host None)]) /\
  configure_and_build sample_host "linux-x64-full" (Some 8%Z)
    (Some ["-DGGML_VULKAN=ON"]) None (World sample_tree []) =
  (Ok ["repo"; "build"; "linux-x64-full"],
   World sample_tree
     [Run ["cmake"; "--preset"; "linux-x64-full"; "-DGGML_VULKAN=ON"]
          (effective_env sample_host None);
      Run ["cmake"; "--build"; "--preset"; "linux-x64-full"; "--parallel"; "8"]
          (effective_env sample_host None)]).
Proof.
  split.
  - apply (proj1 (configure_and_build_steps sample_failing_host "linux-x64-full"
                    (Some 8%Z) (Some ["-DGGML_VULKAN=ON"]) None
                    (World sample_tree []) 2%Z sample_tree eq_refl)).
    discriminate.
  - apply (proj2 (configure_and_build_steps sample_host "linux-x64-full"
                    (Some 8%Z) (Some ["-DGGML_VULKAN=ON"]) None
                    (World sample_tree []) 0%Z sample_tree eq_refl)
                 eq_refl 0%Z sample_tree eq_refl).
Defined.

Lemma linux_cross_compile_witness :
  let args := LinuxArgs (Some "arm64") "vulkan" false None in
  let w := World sample_tree [] in
  build_linux sample_host args w =
    (Raise (SystemExit
       "Cross compiler not found. Install aarch64-linux-gnu-gcc and aarch64-linux-gnu-g++"),
     w) /\
  exists rest,
    commands (w_log (build_linux sample_cross_host args w).2) =
    [ "cmake"; "--preset"; "linux-arm64-full";
      "-DGGML_VULKAN=ON"; "-DGGML_OPENCL=OFF"; "-DGGML_CUDA=OFF"; "-DGGML_BLAS=OFF";
      "-DGGML_ZENDNN=OFF"; "-DGGML_CPU_KLEIDIAI=ON";
      "-DCMAKE_C_COMPILER=/usr/bin/aarch64-linux-gnu-gcc";
      "-DCMAKE_CXX_COMPILER=/usr/bin/aarch64-linux-gnu-g++";
      "-DCMAKE_SYSTEM_NAME=Linux"; "-DCMAKE_SYSTEM_PROCESSOR=aarch64" ] :: rest.
Proof.
  intros args w.
  assert (is_file (w_fs w) (THIRD_PARTY_DIR sample_host ++ ["llama.cpp"; "CMakeLists.txt"])
          = true) as Hsub by (vm_compute; reflexivity).
  assert (exists cv, linux_backend_cache_vars "arm64" (la_backend args) = Ok cv /\
                     dict_get cv "GGML_CUDA" = Some "OFF" /\
                     cmake_cache_args cv =
                       ["-DGGML_VULKAN=ON"; "-DGGML_OPENCL=OFF"; "-DGGML_CUDA=OFF";
                        "-DGGML_BLAS=OFF"; "-DGGML_ZENDNN=OFF"; "-DGGML_CPU_KLEIDIAI=ON"])
    as (cv & Hcv & Hcuda & Hargs) by (eexists; repeat split).
  split.
  - apply (proj1 (linux_cross_compile sample_host args w "x64"
                    ["repo"; "build"; "linux-arm64-full"] w cv
                    eq_refl Hsub eq_refl eq_refl ltac:(discriminate) eq_refl Hcv)).
    reflexivity.
  - destruct (proj2 (linux_cross_compile sample_cross_host args w "x64"
                       ["repo"; "build"; "linux-arm64-full"] w cv
                       eq_refl Hsub eq_refl eq_refl ltac:(discriminate) eq_refl Hcv)
                    "/usr/bin/aarch64-linux-gnu-gcc" "/usr/bin/aarch64-linux-gnu-g++"
                    eq_refl ltac:(discriminate) eq_refl ltac:(discriminate))
      as [rest Hrest].
    + intros Hon. rewrite Hcuda in Hon. discriminate Hon.
    + exists rest. rewrite Hrest, Hargs. reflexivity.
Defined.

(** A failing build on a patched tree: the tool's exit code comes out and
    the CMake file is back to the install target. *)
Example failed_build_restores_patch :
  let file := zendnn_cmake_file sample_failing_host in
  let r := build_linux_guarded sample_failing_host true "linux-x64-full" "x64" None []
             (World {[ file := File (zendnn_new +:+ " # patched") ]} []) in
  r.1 = Raise (CalledProcessError 2) /\
  w_fs r.2 !! file = Some (File (zendnn_old +:+ " # patched")).
Proof. split; vm_compute; reflexivity. Qed.

(** * Further properties *)

(** ** The patch pair, whatever the file holds *)

Lemma patch_no_file h fs log :
  is_file fs (zendnn_cmake_file h) = false ->
  patch_llama_zendnn_install_target h (World fs log) =
    (Raise (SystemExit
       "Missing ggml-zendnn CMake file in llama.cpp submodule. Run: git submodule update --init --recursive"),
     World fs log).
Proof.
  intros Hf. unfold patch_llama_zendnn_install_target.
  rewrite bind_unfold, ensure_submodule_unfold. cbn [w_fs]. by rewrite Hf.
Qed.

Lemma patch_not_applicable h fs log text :
  fs !! zendnn_cmake_file h = Some (File text) ->
  Str.contains text zendnn_new = false ->
  Str.contains text zendnn_old = false ->
  patch_llama_zendnn_install_target h (World fs log) =
    (Raise (SystemExit
       ("Could not apply ZenDNN install target patch: expected install command not found in "
        +:+ path_str (zendnn_cmake_file h))),
     World fs log).
Proof.
  intros Hf Hn Ho. unfold_patch.
  repeat (progress (rewrite ?Hf, ?Hn, ?Ho; cbv beta iota)). done.
Qed.



(** ** Cleaning the build directory *)

Lemma clean_build_dir_unfold h preset clean w :
  clean_build_dir h preset clean w =
  match resolve_build_dir_for_preset h preset with
  | Ok build_dir =>
      if clean && exists_ (w_fs w) build_dir
      then
        if is_dir (w_fs w) build_dir
        then (Ok build_dir,
              World (filter (fun kv : path * node => ~ build_dir `prefix_of` kv.1) (w_fs w))
                    (w_log w ++ [Rmtree build_dir]))
        else (Raise (OSError build_dir), w)
      else (Ok build_dir, w)
  | Raise e => (Raise e, w)
  end.
Proof.
  unfold clean_build_dir. rewrite bind_unfold. unfold lift at 1.
  destruct (resolve_build_dir_for_preset h preset) as [d|e]; [|done].
  rewrite bind_unfold. cbv beta iota delta [get_fs]. rewrite bind_unfold.
  destruct (clean && exists_ (w_fs w) d); cbn [when]; [|done].
  unfold rmtree. rewrite bind_unfold. cbv beta iota delta [get_fs].
  by destruct (is_dir (w_fs w) d).
Qed.

(** X3: [clean_build_dir] returns the preset's build directory.  Without
    [clean], or when the directory does not exist, it leaves the world as it
    is; with [clean] on an existing directory it removes that directory and
    all below it, and nothing else; on a regular file it raises and removes
    nothing. *)
Theorem clean_build_dir_effect h preset w build_dir :
  resolve_build_dir_for_preset h preset = Ok build_dir ->
  clean_build_dir h preset false w = (Ok build_dir, w) /\
  (exists_ (w_fs w) build_dir = false ->
   clean_build_dir h preset true w = (Ok build_dir, w)) /\
  (is_dir (w_fs w) build_dir = true ->
   exists fs',
     clean_build_dir h preset true w =
       (Ok build_dir, World fs' (w_log w ++ [Rmtree build_dir])) /\
     forall q, fs' !! q = if decide (build_dir `prefix_of` q) then None else w_fs w !! q) /\
  (is_file (w_fs w) build_dir = true ->
   clean_build_dir h preset true w = (Raise (OSError build_dir), w)).
Proof.
  intros Hres. rewrite !clean_build_dir_unfold, Hres. cbn [andb].
  split; [done|]. split; [by intros ->|]. split.
  - intros Hdir. rewrite Hdir.
    assert (exists_ (w_fs w) build_dir = true) as ->.
    { unfold is_dir, exists_ in *. by destruct (w_fs w !! build_dir) as [[]|]. }
    eexists. split; [done|]. intros q. apply rmtree_lookup.
  - intros Hfile. unfold is_file, exists_, is_dir in *.
    by destruct (w_fs w !! build_dir) as [[]|].
Qed.

Lemma clean_build_dir_effect_witness :
  exists fs',
    clean_build_dir sample_host "linux-x64-full" true (World sample_tree []) =
      (Ok sample_build_dir, World fs' [Rmtree sample_build_dir]) /\
    fs' !! (sample_build_dir ++ ["libggml.so"]) = None /\
    fs' !! (sample_out_dir ++ ["libstale.so"]) = Some (File "stale").
Proof.
  destruct (clean_build_dir_effect sample_host "linux-x64-full" (World sample_tree [])
              sample_build_dir eq_refl) as (_ & _ & Hdir & _).
  destruct Hdir as (fs' & Hrun & Hlook); [vm_compute; reflexivity|].
  exists fs'. split; [exact Hrun|]. split.
  - rewrite Hlook. rewrite decide_True; [done | by apply prefix_app_r].
  - rewrite Hlook. rewrite decide_False; [vm_compute; reflexivity|].
    intros [k Hk]. discriminate Hk.
Defined.

(** ** What the steps can raise *)

Section Raises.
Context (Q : exn -> Prop).

Lemma raises_ret {A} (a : A) : raises_only Q (mret a).
Proof. by intros w e w' [=]. Qed.

Lemma raises_raise {A} e : Q e -> raises_only Q (@raise A e).
Proof. by intros He w e' w' [= <- _]. Qed.

Lemma raises_fail {A} msg : Q (SystemExit msg) -> raises_only Q (@fail A msg).
Proof. apply raises_raise. Qed.

Lemma raises_lift {A} (r : result A) :
  (forall e, r = Raise e -> Q e) -> raises_only Q (lift r).
Proof. intros Hr w e w' [= -> _]. by apply Hr. Qed.

Lemma raises_get_fs : raises_only Q get_fs.
Proof. by intros w e w' [=]. Qed.

Lemma raises_put_fs fs : raises_only Q (put_fs fs).
Proof. by intros w e w' [=]. Qed.

Lemma raises_emit ev : raises_only Q (emit ev).
Proof. by intros w e w' [=]. Qed.

Lemma raises_bind_post {A B} (m : M A) (f : A -> M B) :
  raises_only Q m ->
  (forall w a w', m w = (Ok a, w') -> raises_only Q (f a)) ->
  raises_only Q (m ≫= f).
Proof.
  intros Hm Hf w e w'. rewrite bind_unfold.
  destruct (m w) as [[a|e'] w1] eqn:E.
  - apply (Hf _ _ _ E).
  - intros [= <- <-]. by apply (Hm _ _ _ E).
Qed.

Lemma raises_bind {A B} (m : M A) (f : A -> M B) :
  raises_only Q m -> (forall a, raises_only Q (f a)) -> raises_only Q (m ≫= f).
Proof. intros Hm Hf. apply raises_bind_post; auto. Qed.

Lemma raises_when b m : raises_only Q m -> raises_only Q (when b m).
Proof. intros Hm. destruct b; [done | apply raises_ret]. Qed.

Lemma raises_for_each {A} (l : list A) (f : A -> M unit) :
  (forall x, x ∈ l -> raises_only Q (f x)) -> raises_only Q (for_each l f).
Proof.
  induction l as [|x l IH]; intros Hf; [apply raises_ret|].
  apply raises_bind; [apply Hf; by left|]. intros _. apply IH.
  intros y Hy. apply Hf. by right.
Qed.

Lemma raises_try_finally {A} (body : M A) fin :
  raises_only Q body -> raises_only Q fin -> raises_only Q (try_finally body fin).
Proof.
  intros Hb Hf w e w'. unfold try_finally.
  destruct (body w) as [r w1] eqn:Eb. destruct (fin w1) as [[[]|e'] w2] eqn:Ef.
  - intros [= -> <-]. by apply (Hb _ _ _ Eb).
  - intros [= <- <-]. by apply (Hf _ _ _ Ef).
Qed.

(** The file-system calls raise [OSError], [relative_to] raises
    [ValueError], and [run] raises [CalledProcessError]. *)
Hypothesis Q_OSError : forall p, Q (OSError p).
Hypothesis Q_CalledProcessError : forall returncode, Q (CalledProcessError returncode).

Lemma raises_read_text p : raises_only Q (read_text p).
Proof.
  unfold read_text. apply raises_bind; [apply raises_get_fs|]. intros fs.
  destruct (fs !! p) as [[?|]|]; auto using raises_ret, raises_raise.
Qed.

Lemma raises_write_text p data : raises_only Q (write_text p data).
Proof.
  unfold write_text. apply raises_bind; [apply raises_get_fs|]. intros fs.
  destruct (fs !! p) as [[?|]|]; [..|destruct (is_dir fs (parent p))];
    auto using raises_raise, raises_bind, raises_put_fs, raises_emit.
Qed.

Lemma raises_rmtree p : raises_only Q (rmtree p).
Proof.
  unfold rmtree. apply raises_bind; [apply raises_get_fs|]. intros fs.
  destruct (is_dir fs p); auto using raises_raise, raises_bind, raises_put_fs, raises_emit.
Qed.

Lemma raises_mkdir_parents p : raises_only Q (mkdir_parents p).
Proof.
  unfold mkdir_parents. apply raises_bind; [apply raises_get_fs|]. intros fs.
  destruct (foldl mkdir_step (Some fs) (ancestors p));
    auto using raises_raise, raises_bind, raises_put_fs, raises_emit.
Qed.

Lemma raises_copy2 src dst : raises_only Q (copy2 src dst).
Proof.
  unfold copy2. apply raises_bind; [apply raises_get_fs|]. intros fs.
  destruct (fs !! src) as [[data|]|]; [|by apply raises_raise..].
  cbv zeta.
  repeat match goal with
         | |- raises_only _ (if ?b then _ else _) => destruct b
         end;
    auto using raises_raise, raises_bind, raises_put_fs, raises_emit.
Qed.

Lemma raises_relative_to p base :
  base `prefix_of` p -> raises_only Q (relative_to p base).
Proof. intros Hp. unfold relative_to. rewrite decide_True by done. apply raises_ret. Qed.

Lemma raises_run h cmd env : raises_only Q (run h cmd env).
Proof.
  intros w e w'. unfold run.
  destruct (tool h cmd _ (w_fs w)) as [returncode fs'].
  destruct (returncode =? 0)%Z; [done|]. by intros [= <- _].
Qed.

Lemma raises_configure_and_build h preset jobs extra env :
  (forall e, resolve_build_dir_for_preset h preset = Raise e -> Q e) ->
  raises_only Q (configure_and_build h preset jobs extra env).
Proof.
  intros Hres. unfold configure_and_build.
  apply raises_bind; [apply raises_run|]. intros _.
  apply raises_bind; [apply raises_run|]. intros _.
  by apply raises_lift.
Qed.

Lemma raises_clean_build_dir h preset clean :
  (forall e, resolve_build_dir_for_preset h preset = Raise e -> Q e) ->
  raises_only Q (clean_build_dir h preset clean).
Proof.
  intros Hres. unfold clean_build_dir.
  apply raises_bind; [by apply raises_lift|]. intros build_dir.
  apply raises_bind; [apply raises_get_fs|]. intros fs.
  apply raises_bind; [apply raises_when, raises_rmtree | intros _; apply raises_ret].
Qed.

Lemma raises_reset_dir p : raises_only Q (reset_dir p).
Proof.
  unfold reset_dir. apply raises_bind; [apply raises_get_fs|]. intros fs.
  apply raises_bind; [apply raises_when, raises_rmtree|].
  intros _. apply raises_mkdir_parents.
Qed.

Lemma raises_copy_output h src dst :
  REPO_ROOT h `prefix_of` dst -> raises_only Q (copy_output h src dst).
Proof.
  intros Hroot. unfold copy_output.
  apply raises_bind; [apply raises_mkdir_parents|]. intros _.
  apply raises_bind; [apply raises_copy2|]. intros _.
  apply raises_bind; [by apply raises_relative_to | intros _; apply raises_ret].
Qed.

Lemma raises_copy_runtime_libraries h build_dir out_dir :
  REPO_ROOT h `prefix_of` out_dir ->
  Q (SystemExit ("No runtime libraries found under " +:+ path_str build_dir)) ->
  raises_only Q (copy_runtime_libraries h build_dir out_dir).
Proof.
  intros Hroot Hnone. unfold copy_runtime_libraries.
  apply raises_bind.
  { intros w e w'. rewrite collect_runtime_libraries_unfold. cbv zeta.
    destruct (decide _); [|done]. by intros [= <- _]. }
  intros libs. apply raises_bind; [apply raises_reset_dir|]. intros _.
  apply raises_bind.
  { apply raises_for_each. intros src _. apply raises_copy_output.
    by apply prefix_app_r. }
  intros _. apply raises_bind; [by apply raises_relative_to | intros _; apply raises_ret].
Qed.

End Raises.

(** ** What a linux build can raise *)

Lemma linux_resolver_raises arch backend e :
  linux_backend_cache_vars arch backend = Raise e ->
  e = SystemExit "Linux cuda backend build is only available for x64".
Proof.
  unfold linux_backend_cache_vars.
  destruct (String.eqb backend "cuda" && negb (String.eqb arch "x64")); [|done].
  by intros [= <-].
Qed.

Lemma raises_ensure_submodule Q p error :
  Q (SystemExit error) -> raises_only Q (ensure_submodule p error).
Proof.
  intros HQ w e w'. rewrite ensure_submodule_unfold.
  destruct (is_file (w_fs w) p); [done|]. by intros [= <- _].
Qed.

Lemma raises_detect_linux_arch Q h :
  Q (SystemExit ("Unsupported host architecture '" +:+ Str.lower (platform_machine h)
                 +:+ "' for Linux builds")) ->
  raises_only Q (detect_linux_arch h).
Proof.
  intros HQ w e w'. unfold detect_linux_arch.
  repeat match goal with |- context [if ?b then _ else _] => destruct b end;
    try done. by intros [= <- _].
Qed.

(** The steps of [build_linux] from the cross-toolchain arguments on, for
    cache variables the linux resolver returned. *)
Lemma raises_build_linux_tail Q h arch backend cv jobs (extra_args : M (list string)) :
  (forall p, Q (OSError p)) ->
  (forall returncode, Q (CalledProcessError returncode)) ->
  (forall e, resolve_build_dir_for_preset h ("linux-" +:+ arch +:+ "-full") = Raise e -> Q e) ->
  (forall build_dir,
     Q (SystemExit ("No runtime libraries found under " +:+ path_str build_dir))) ->
  Q (SystemExit "Linux CUDA backend build requires CUDA (nvcc not found in PATH)") ->
  linux_backend_cache_vars arch backend = Ok cv ->
  raises_only Q extra_args ->
  raises_only Q
    (extra_args ← extra_args;
     cuda ← lift (getitem cv "GGML_CUDA");
     when (String.eqb cuda "ON"
           && negb (truthy (which h "nvcc") || truthy (which h "nvcc.exe")))
          (fail "Linux CUDA backend build requires CUDA (nvcc not found in PATH)");;
     zendnn_patch_applied ←
       (if String.eqb arch "x64"
        then
          zendnn ← lift (getitem cv "GGML_ZENDNN");
          if String.eqb zendnn "ON" then patch_llama_zendnn_install_target h
          else mret false
        else mret false);
     build_linux_guarded h zendnn_patch_applied ("linux-" +:+ arch +:+ "-full") arch
       jobs extra_args).
Proof.
  intros HOS HCP Hres Hnone Hnvcc Hcv Hextra.
  pose proof (linux_zendnn_off _ _ _ Hcv) as Hz.
  apply raises_bind; [done|]. intros extra.
  apply raises_bind.
  { apply raises_lift. unfold getitem.
    by destruct (linux_cuda_switch _ _ _ Hcv) as [-> | ->]. }
  intros cuda. apply raises_bind; [by apply raises_when, raises_fail|]. intros _.
  apply raises_bind_post.
  { intros w e w'. by rewrite linux_patch_decision. }
  intros w applied w' Hd. rewrite linux_patch_decision in Hd by done.
  injection Hd as <- _.
  unfold build_linux_guarded. apply raises_try_finally; [|apply raises_ret].
  apply raises_bind; [by apply raises_configure_and_build|]. intros build_dir.
  apply raises_copy_runtime_libraries; [done..| |done].
  unfold BIN_DIR. rewrite <- app_assoc. by apply prefix_app_r.
Qed.

(** X4: a build for the host's own architecture (no [--arch] given) never
    fails for want of a cross compiler, whatever is on the PATH. *)
Theorem native_build_needs_no_cross_compiler h args :
  la_arch args = None ->
  (forall preset e,
     resolve_build_dir_for_preset h preset = Raise e ->
     e <> SystemExit
       "Cross compiler not found. Install aarch64-linux-gnu-gcc and aarch64-linux-gnu-g++") ->
  raises_only
    (fun e => e <> SystemExit
       "Cross compiler not found. Install aarch64-linux-gnu-gcc and aarch64-linux-gnu-g++")
    (build_linux h args).
Proof.
  intros Harch Hres. unfold build_linux.
  apply raises_bind; [by apply raises_when, raises_fail|]. intros _.
  apply raises_bind; [by apply raises_ensure_submodule|]. intros _.
  apply raises_bind_post.
  { unfold linux_arch. rewrite Harch. cbn [truthy].
    by apply raises_detect_linux_arch. }
  intros w1 arch w1' Hdetect.
  unfold linux_arch in Hdetect. rewrite Harch in Hdetect. cbn [truthy] in Hdetect.
  assert (w1' = w1) as ->.
  { pose proof (detect_linux_arch_pure h w1) as Hp. by rewrite Hdetect in Hp. }
  apply raises_bind.
  { apply raises_clean_build_dir; [done..|]. by eauto. }
  intros _. apply raises_bind_post.
  { apply raises_lift. by intros e ->%linux_resolver_raises. }
  intros w0 cv w0' [= Hcv _].
  apply raises_bind_post; [by apply raises_detect_linux_arch|].
  intros w2 host_arch w2' Hhost.
  assert (host_arch = arch) as ->.
  { rewrite (detect_linux_arch_at h w1 w2 _ Hdetect) in Hhost. by injection Hhost. }
  apply (raises_build_linux_tail _ h arch (la_backend args) cv (la_jobs args));
    try done.
  - by eauto.
  - destruct (String.eqb arch "arm64"); cbn [andb negb]; apply raises_ret.
Qed.

Lemma native_build_needs_no_cross_compiler_witness :
  la_arch (LinuxArgs None "vulkan" false None) = None /\
  (build_linux sample_arm_host (LinuxArgs None "vulkan" false None)
     (World sample_bare_tree [])).1 <>
  Raise (SystemExit
    "Cross compiler not found. Install aarch64-linux-gnu-gcc and aarch64-linux-gnu-g++").
Proof.
  split; [reflexivity|]. intros Hr.
  destruct (build_linux sample_arm_host (LinuxArgs None "vulkan" false None)
              (World sample_bare_tree [])) as [r w'] eqn:E.
  cbn [fst] in Hr. subst r.
  by apply (native_build_needs_no_cross_compiler sample_arm_host
              (LinuxArgs None "vulkan" false None) eq_refl
              ltac:(by intros preset e [=]) _ _ _ E).
Defined.

(** ** The commands the entry points run *)

Lemma effective_env_ccache h env : is_Some (effective_env h env !! "CCACHE_DIR").
Proof.
  unfold effective_env. cbv zeta.
  destruct (default (environ h) env !! "CCACHE_DIR") eqn:E; [by rewrite E|].
  rewrite lookup_insert_eq. eauto.
Qed.

Lemma fs_event_cmake e : fs_event e -> cmake_event e.
Proof. by destruct e. Qed.

Lemma write_event_cmake e : write_event e -> cmake_event e.
Proof. by destruct e. Qed.

Lemma emits_run_cmake h cmd env :
  head cmd = Some "cmake" -> emits cmake_event (run h cmd env).
Proof.
  intros Hcmd w. unfold run.
  destruct (tool h cmd (effective_env h env) (w_fs w)) as [returncode fs'].
  eexists [_]. split; [by destruct (returncode =? 0)%Z|].
  repeat constructor; [done | apply effective_env_ccache].
Qed.

Lemma emits_cmake_configure_and_build h preset jobs extra env :
  emits cmake_event (configure_and_build h preset jobs extra env).
Proof.
  unfold configure_and_build.
  apply emits_bind; [by apply emits_run_cmake|]. intros _.
  apply emits_bind; [by apply emits_run_cmake|]. intros _. apply emits_lift.
Qed.

Ltac solve_cmake :=
  repeat first
    [ solve [auto with emits]
    | progress cbv zeta
    | apply emits_cmake_configure_and_build
    | eapply emits_weaken; [apply fs_event_cmake | solve [auto with emits]]
    | eapply emits_weaken; [apply write_event_cmake | solve [auto with emits]]
    | apply emits_bind; [|intros ?]
    | apply emits_when | apply emits_try_finally
    | match goal with
      | |- emits _ (match ?x with _ => _ end) => destruct x
      end ].

(** X5: whatever the arguments, the host and the world, every command the
    linux, windows and Apple entry points run is a [cmake] invocation, and
    it runs with [CCACHE_DIR] set in its environment. *)
Theorem entry_points_run_cmake h :
  (forall args, emits cmake_event (build_linux h args)) /\
  (forall args, emits cmake_event (build_windows h args)) /\
  (forall args, emits cmake_event (build_apple h args)).
Proof.
  split; [|split]; intros args.
  - unfold build_linux, build_linux_guarded. solve_cmake.
  - unfold build_windows. solve_cmake.
  - unfold build_apple. solve_cmake.
Qed.

(** ** The checks the entry points make first *)

(** X6: each entry point first checks the host system (whatever the case of
    its name) and then the llama.cpp submodule; when either check fails it
    raises the matching message and has done nothing. *)
Theorem entry_points_check_first h w :
  let submodule := THIRD_PARTY_DIR h ++ ["llama.cpp"; "CMakeLists.txt"] in
  let missing :=
    SystemExit "Missing submodule: third_party/llama.cpp. Run: git submodule update --init --recursive" in
  (forall args,
     build_linux h args w =
       (Raise (SystemExit "Linux builds must be run on Linux hosts"), w) \/
     Str.lower (platform_system h) = "linux" /\
     (is_file (w_fs w) submodule = false -> build_linux h args w = (Raise missing, w))) /\
  (forall args,
     build_windows h args w =
       (Raise (SystemExit "Windows builds must be run on Windows hosts"), w) \/
     Str.lower (platform_system h) = "windows" /\
     (is_file (w_fs w) submodule = false -> build_windows h args w = (Raise missing, w))) /\
  (forall args,
     build_apple h args w =
       (Raise (SystemExit "Apple builds must be run on macOS hosts"), w) \/
     Str.lower (platform_system h) = "darwin" /\
     (is_file (w_fs w) submodule = false -> build_apple h args w = (Raise missing, w))).
Proof.
  intros submodule missing.
  split; [|split]; intros args.
  - unfold build_linux. rewrite bind_unfold, when_fail.
    destruct (String.eqb_spec (Str.lower (platform_system h)) "linux") as [Hs|Hs];
      cbn [negb]; [right | by left].
    split; [done|]. intros Hsub.
    rewrite bind_unfold, ensure_submodule_unfold. fold submodule. by rewrite Hsub.
  - unfold build_windows. rewrite bind_unfold, when_fail.
    destruct (String.eqb_spec (Str.lower (platform_system h)) "windows") as [Hs|Hs];
      cbn [negb]; [right | by left].
    split; [done|]. intros Hsub.
    rewrite bind_unfold, ensure_submodule_unfold. fold submodule. by rewrite Hsub.
  - unfold build_apple. rewrite bind_unfold, when_fail.
    destruct (String.eqb_spec (Str.lower (platform_system h)) "darwin") as [Hs|Hs];
      cbn [negb]; [right | by left].
    split; [done|]. intros Hsub.
    rewrite bind_unfold, ensure_submodule_unfold. fold submodule. by rewrite Hsub.
Qed.

(** ** CUDA needs [nvcc] *)

Lemma windows_cuda_switch arch backend cv :
  windows_backend_cache_vars arch backend = Ok cv ->
  dict_get cv "GGML_CUDA" = Some "ON" \/ dict_get cv "GGML_CUDA" = Some "OFF".
Proof.
  unfold windows_backend_cache_vars.
  repeat match goal with |- context [if ?b then _ else _] => destruct b end;
    intros [= <-]; auto.
Qed.

(** X7: with CUDA switched on by the resolver and no [nvcc] on the PATH,
    the windows build raises the CUDA message before it has done anything,
    and the linux build raises it after the clean of the build directory and
    before any command. *)
Theorem cuda_needs_nvcc h w cv :
  is_file (w_fs w) (THIRD_PARTY_DIR h ++ ["llama.cpp"; "CMakeLists.txt"]) = true ->
  dict_get cv "GGML_CUDA" = Some "ON" ->
  truthy (which h "nvcc") || truthy (which h "nvcc.exe") = false ->
  (forall args,
     Str.lower (platform_system h) = "windows" ->
     windows_backend_cache_vars (wa_arch args) (wa_backend args) = Ok cv ->
     build_windows h args w =
       (Raise (SystemExit "Windows CUDA backend build requires CUDA (nvcc not found in PATH)"),
        w)) /\
  (forall args arch host_arch d w1,
     Str.lower (platform_system h) = "linux" ->
     linux_arch h args w = (Ok arch, w) ->
     detect_linux_arch h w = (Ok host_arch, w) ->
     String.eqb arch "arm64" && negb (String.eqb host_arch "arm64") = false ->
     clean_build_dir h ("linux-" +:+ arch +:+ "-full") (la_clean args) w = (Ok d, w1) ->
     linux_backend_cache_vars arch (la_backend args) = Ok cv ->
     build_linux h args w =
       (Raise (SystemExit "Linux CUDA backend build requires CUDA (nvcc not found in PATH)"),
        w1) /\
     commands (w_log w1) = commands (w_log w)).
Proof.
  intros Hsub Hcuda Hnvcc. split.
  - intros args Hsys Hcv. unfold build_windows.
    rewrite bind_unfold, when_fail, Hsys. cbn [negb String.eqb Ascii.eqb Bool.eqb].
    rewrite bind_unfold, ensure_submodule_unfold, Hsub.
    rewrite bind_unfold. unfold lift at 1. rewrite Hcv.
    rewrite bind_unfold. unfold lift at 1, getitem. rewrite Hcuda.
    rewrite bind_unfold, when_fail, Hnvcc. done.
  - intros args arch host_arch d w1 Hsys Harch Hhost Hcross Hclean Hcv.
    pose proof (clean_build_dir_commands h ("linux-" +:+ arch +:+ "-full")
                  (la_clean args) w) as Hcmds.
    rewrite Hclean in Hcmds. split; [|done].
    unfold build_linux.
    rewrite bind_unfold, when_fail, Hsys. cbn [negb String.eqb Ascii.eqb Bool.eqb].
    rewrite bind_unfold, ensure_submodule_unfold, Hsub.
    rewrite bind_unfold, Harch.
    rewrite bind_unfold, Hclean.
    rewrite bind_unfold. unfold lift at 1. rewrite Hcv.
    rewrite bind_unfold, (detect_linux_arch_at h w w1 _ Hhost).
    rewrite Hcross. rewrite bind_unfold. cbv beta iota delta [mret M_ret].
    rewrite bind_unfold. unfold lift at 1, getitem. rewrite Hcuda.
    rewrite bind_unfold, when_fail, Hnvcc. done.
Qed.

Lemma cuda_needs_nvcc_witness :
  build_windows sample_windows_host (WindowsArgs "x64" "cuda" None true None)
    (World sample_tree []) =
  (Raise (SystemExit "Windows CUDA backend build requires CUDA (nvcc not found in PATH)"),
   World sample_tree []) /\
  build_linux sample_host (LinuxArgs (Some "x64") "full" false None) (World sample_tree []) =
  (Raise (SystemExit "Linux CUDA backend build requires CUDA (nvcc not found in PATH)"),
   World sample_tree []).
Proof.
  split.
  - destruct (windows_backend_cache_vars "x64" "cuda") as [cv|] eqn:Hcv; [|discriminate Hcv].
    assert (dict_get cv "GGML_CUDA" = Some "ON") as Hcuda
      by (injection Hcv as <-; vm_compute; reflexivity).
    destruct (cuda_needs_nvcc sample_windows_host (World sample_tree []) cv) as [Hwin _];
      [reflexivity | exact Hcuda | reflexivity |].
    apply (Hwin (WindowsArgs "x64" "cuda" None true None));
      [reflexivity | exact Hcv].
  - destruct (linux_backend_cache_vars "x64" "full") as [cv|] eqn:Hcv; [|discriminate Hcv].
    assert (dict_get cv "GGML_CUDA" = Some "ON") as Hcuda
      by (injection Hcv as <-; vm_compute; reflexivity).
    destruct (cuda_needs_nvcc sample_host (World sample_tree []) cv) as [_ Hlin];
      [reflexivity | exact Hcuda | reflexivity |].
    destruct (Hlin (LinuxArgs (Some "x64") "full" false None) "x64" "x64"
                sample_build_dir (World sample_tree [])) as [Hrun _];
      [reflexivity.. | exact Hcv | exact Hrun].
Defined.

(** ** What the other entry points can raise *)

Lemma windows_resolver_raises arch backend e :
  windows_backend_cache_vars arch backend = Raise e ->
  e = SystemExit "Windows cuda backend build is only available for x64".
Proof.
  unfold windows_backend_cache_vars.
  destruct (String.eqb backend "cuda" && negb (String.eqb arch "x64")); [|done].
  by intros [= <-].
Qed.

Lemma windows_switches arch backend cv :
  windows_backend_cache_vars arch backend = Ok cv ->
  is_Some (dict_get cv "GGML_CUDA") /\ is_Some (dict_get cv "GGML_BLAS") /\
  is_Some (dict_get cv "GGML_VULKAN").
Proof.
  unfold windows_backend_cache_vars.
  repeat match goal with |- context [if ?b then _ else _] => destruct b end;
    intros [= <-]; repeat split; by eexists.
Qed.

Lemma raises_getitem Q (d : dict) key :
  is_Some (dict_get d key) -> raises_only Q (lift (getitem d key)).
Proof. intros [v Hv]. apply raises_lift. unfold getitem. by rewrite Hv. Qed.

Lemma raises_build_windows Q h args :
  (forall msg, Q (SystemExit msg)) ->
  (forall p, Q (OSError p)) ->
  (forall returncode, Q (CalledProcessError returncode)) ->
  (forall e, resolve_build_dir_for_preset h ("windows-" +:+ wa_arch args +:+ "-full") = Raise e ->
             Q e) ->
  wa_arch args ∈ ["x64"; "arm64"] ->
  raises_only Q (build_windows h args).
Proof.
  intros Hmsg HOS HCP Hres Harch. unfold build_windows.
  apply raises_bind; [by apply raises_when, raises_fail|]. intros _.
  apply raises_bind; [by apply raises_ensure_submodule|]. intros _.
  cbv zeta. apply raises_bind_post.
  { apply raises_lift. by intros e ->%windows_resolver_raises. }
  intros w0 cv w0' [= Hcv _].
  destruct (windows_switches _ _ _ Hcv) as (Hcuda & Hblas & Hvulkan).
  apply raises_bind; [by apply raises_getitem|]. intros cuda.
  apply raises_bind; [by apply raises_when, raises_fail|]. intros _.
  apply raises_bind; [by apply raises_clean_build_dir|]. intros _.
  apply raises_bind; [apply raises_get_fs|]. intros fs.
  apply raises_bind.
  { destruct (detect_vcpkg_root h) as [vcpkg_root|]; [|apply raises_ret].
    apply raises_bind; [by apply raises_getitem|]. intros blas.
    destruct (String.eqb blas "ON"); [|apply raises_ret].
    destruct (is_file fs _); [|apply raises_ret].
    apply raises_bind; [|intros triplet; apply raises_ret].
    apply raises_lift. intros e.
    apply list_elem_of_In in Harch. destruct Harch as [<- | [<- | []]]; done. }
  intros extra_args.
  apply raises_bind; [by apply raises_getitem|]. intros vulkan.
  apply raises_bind; [by apply raises_configure_and_build|]. intros build_dir.
  apply raises_copy_runtime_libraries; [done | | done].
  unfold BIN_DIR. rewrite <- app_assoc. by apply prefix_app_r.
Qed.

Lemma apple_target_known target :
  target ∈ APPLE_TARGETS.*1 -> is_Some (match apple_target APPLE_TARGETS target with
                                        | Ok entry => Some entry
                                        | Raise _ => None
                                        end).
Proof.
  intros Hin. apply list_elem_of_In in Hin. cbn in Hin.
  repeat (destruct Hin as [<- | Hin]; [by eexists|]). done.
Qed.

Lemma raises_build_apple Q h args :
  (forall msg, Q (SystemExit msg)) ->
  (forall p, Q (OSError p)) ->
  (forall returncode, Q (CalledProcessError returncode)) ->
  (forall preset e, resolve_build_dir_for_preset h preset = Raise e -> Q e) ->
  aa_target args ∈ APPLE_TARGETS.*1 ->
  raises_only Q (build_apple h args).
Proof.
  intros Hmsg HOS HCP Hres Htarget. unfold build_apple.
  apply raises_bind; [by apply raises_when, raises_fail|]. intros _.
  apply raises_bind; [by apply raises_ensure_submodule|]. intros _.
  apply raises_bind.
  { apply raises_lift. intros e He.
    destruct (apple_target_known _ Htarget) as [entry Hentry]. by rewrite He in Hentry. }
  intros entry. cbv zeta.
  apply raises_bind; [apply raises_clean_build_dir; by eauto|]. intros _.
  apply raises_bind; [apply raises_configure_and_build; by eauto|]. intros build_dir.
  apply raises_copy_runtime_libraries; [done | | done].
  unfold BIN_DIR. rewrite <- app_assoc. by apply prefix_app_r.
Qed.

Lemma raises_build_linux Q h args :
  (forall msg, Q (SystemExit msg)) ->
  (forall p, Q (OSError p)) ->
  (forall returncode, Q (CalledProcessError returncode)) ->
  (forall preset e, resolve_build_dir_for_preset h preset = Raise e -> Q e) ->
  raises_only Q (build_linux h args).
Proof.
  intros Hmsg HOS HCP Hres. unfold build_linux.
  apply raises_bind; [by apply raises_when, raises_fail|]. intros _.
  apply raises_bind; [by apply raises_ensure_submodule|]. intros _.
  apply raises_bind.
  { unfold linux_arch. destruct (truthy (la_arch args)); [apply raises_ret|].
    by apply raises_detect_linux_arch. }
  intros arch. apply raises_bind; [apply raises_clean_build_dir; by eauto|]. intros _.
  apply raises_bind_post.
  { apply raises_lift. by intros e ->%linux_resolver_raises. }
  intros w0 cv w0' [= Hcv _].
  apply raises_bind; [by apply raises_detect_linux_arch|]. intros host_arch.
  apply (raises_build_linux_tail Q h arch (la_backend args) cv (la_jobs args));
    try done; [by eauto|].
  destruct (String.eqb arch "arm64" && negb (String.eqb host_arch "arm64"));
    [|apply raises_ret].
  destruct (which h "aarch64-linux-gnu-gcc") as [[|? ?]|];
    destruct (which h "aarch64-linux-gnu-g++") as [[|? ?]|];
    first [apply raises_ret | by apply raises_fail].
Qed.

(** The handler around [main()] turns a failed command into a message. *)
Lemma raises_main func :
  raises_only build_failure func -> raises_only exit_or_os_error (main func).
Proof.
  intros Hf w e w'. unfold main.
  destruct (func w) as [[[]|e0] w0] eqn:E; [done|].
  pose proof (Hf _ _ _ E) as He0.
  destruct e0; try done; by intros [= <- _].
Qed.

(** ** What a failed command leaves behind *)

Section OnRaise.
Context (Q : exn -> Prop) (P : event -> Prop).

Lemma on_raise_emits {A} (m : M A) : emits P m -> emits_on_raise Q P m.
Proof.
  intros Hm w e w' E _. destruct (Hm w) as (delta & Hd & HP).
  rewrite E in Hd. eauto.
Qed.

Lemma on_raise_never {A} (m : M A) :
  raises_only (fun e => ~ Q e) m -> emits_on_raise Q P m.
Proof. intros Hm w e w' E HQ. by destruct (Hm _ _ _ E). Qed.

Lemma on_raise_bind_post {A B} (m : M A) (f : A -> M B) :
  emits P m ->
  (forall w a w', m w = (Ok a, w') -> emits_on_raise Q P (f a)) ->
  emits_on_raise Q P (m ≫= f).
Proof.
  intros Hm Hf w e w'. rewrite bind_unfold.
  destruct (Hm w) as (d1 & E1 & H1).
  destruct (m w) as [[a|e0] w1] eqn:E; cbn [snd] in E1.
  - intros E2 HQ. destruct (Hf _ _ _ E _ _ _ E2 HQ) as (d2 & -> & H2).
    exists (d1 ++ d2). rewrite E1, app_assoc. split; [done | by apply Forall_app].
  - intros [= <- <-] _. eauto.
Qed.

Lemma on_raise_bind {A B} (m : M A) (f : A -> M B) :
  emits P m -> (forall a, emits_on_raise Q P (f a)) -> emits_on_raise Q P (m ≫= f).
Proof. intros Hm Hf. apply on_raise_bind_post; auto. Qed.

Lemma on_raise_try_finally {A} (body : M A) :
  emits_on_raise Q P body -> emits_on_raise Q P (try_finally body (mret tt)).
Proof.
  intros Hb w e w'. unfold try_finally.
  destruct (body w) as [r w1] eqn:E. cbn. intros [= -> <-]. by apply (Hb _ _ _ E).
Qed.
End OnRaise.

Lemma emits_before_clean h preset clean :
  emits (before_copy h) (clean_build_dir h preset clean).
Proof.
  intros w. rewrite clean_build_dir_unfold.
  destruct (resolve_build_dir_for_preset h preset) as [build_dir|e] eqn:Hres;
    [|exists []; by rewrite app_nil_r].
  destruct (clean && exists_ (w_fs w) build_dir); [|exists []; by rewrite app_nil_r].
  destruct (is_dir (w_fs w) build_dir); [|exists []; by rewrite app_nil_r].
  exists [Rmtree build_dir]. split; [done|]. repeat constructor. by exists preset.
Qed.

Lemma run_event_before_copy h e : run_event e -> before_copy h e.
Proof. by destruct e. Qed.

(** The configure and build commands and the copy that follows them. *)
Lemma on_raise_build_and_copy h preset jobs extra env out_dir :
  REPO_ROOT h `prefix_of` out_dir ->
  emits_on_raise command_failed (before_copy h)
    (build_dir ← configure_and_build h preset jobs extra env;
     copy_runtime_libraries h build_dir out_dir).
Proof.
  intros Hroot. apply on_raise_bind.
  { eapply emits_weaken; [apply run_event_before_copy | apply emits_configure_and_build]. }
  intros build_dir. apply on_raise_never.
  apply raises_copy_runtime_libraries; [intros p H; exact H | done | intros H; exact H].
Qed.

Ltac before_copy_step :=
  apply on_raise_bind;
  [ first [ apply emits_before_clean
          | solve [auto with emits]
          | solve [solve_emits] ]
  | intros ? ].

(** X8: when an entry point ends because a command failed, all it has done
    is run commands and, before them, clean a preset's build directory: it
    has reset no output directory, copied nothing and written no file. *)
Theorem failed_command_keeps_output h :
  (forall args, emits_on_raise command_failed (before_copy h) (build_linux h args)) /\
  (forall args, emits_on_raise command_failed (before_copy h) (build_windows h args)) /\
  (forall args, emits_on_raise command_failed (before_copy h) (build_apple h args)).
Proof.
  split; [|split]; intros args.
  - unfold build_linux. do 4 before_copy_step.
    apply on_raise_bind_post; [apply emits_lift|].
    intros w0 cv w0' [= Hcv _].
    pose proof (linux_zendnn_off _ _ _ Hcv) as Hz.
    do 4 before_copy_step.
    apply on_raise_bind_post.
    { intros w. rewrite linux_patch_decision by done. exists []. by rewrite app_nil_r. }
    intros w applied w' Hd. rewrite linux_patch_decision in Hd by done.
    injection Hd as <- _.
    unfold build_linux_guarded. apply on_raise_try_finally, on_raise_build_and_copy.
    unfold BIN_DIR. rewrite <- app_assoc. by apply prefix_app_r.
  - unfold build_windows. cbv zeta. do 9 before_copy_step.
    apply on_raise_build_and_copy.
    unfold BIN_DIR. rewrite <- app_assoc. by apply prefix_app_r.
  - unfold build_apple. cbv zeta. do 4 before_copy_step.
    apply on_raise_build_and_copy.
    unfold BIN_DIR. rewrite <- app_assoc. by apply prefix_app_r.
Qed.

(** X9: what a failed build ends with.  Whatever the world, an entry point
    called with arguments the command line admits raises only a message, a
    failed command or a file-system error, never a missing key or a path
    outside the repository; and behind the handler of [main] a failed
    command has become a message too.  The preset lookup is taken to fail
    in those ways only. *)
Theorem entry_points_failures h :
  (forall preset e, resolve_build_dir_for_preset h preset = Raise e -> build_failure e) ->
  (forall args,
     raises_only build_failure (build_linux h args) /\
     raises_only exit_or_os_error (main (build_linux h args))) /\
  (forall args,
     wa_arch args ∈ ["x64"; "arm64"] ->
     raises_only build_failure (build_windows h args) /\
     raises_only exit_or_os_error (main (build_windows h args))) /\
  (forall args,
     aa_target args ∈ APPLE_TARGETS.*1 ->
     raises_only build_failure (build_apple h args) /\
     raises_only exit_or_os_error (main (build_apple h args))).
Proof.
  intros Hres.
  assert (forall args, raises_only build_failure (build_linux h args)) as Hlinux
    by (intros args; by apply raises_build_linux).
  assert (forall args, wa_arch args ∈ ["x64"; "arm64"] ->
                       raises_only build_failure (build_windows h args)) as Hwindows
    by (intros args Harch; apply raises_build_windows; by eauto).
  assert (forall args, aa_target args ∈ APPLE_TARGETS.*1 ->
                       raises_only build_failure (build_apple h args)) as Happle
    by (intros args Htarget; by apply raises_build_apple).
  split; [|split]; intros args; [|intros Ha..]; (split; [|apply raises_main]); auto.
Qed.

Lemma entry_points_failures_witness :
  raises_only exit_or_os_error
    (main (build_linux sample_failing_host (LinuxArgs (Some "x64") "vulkan" false None))) /\
  raises_only build_failure
    (build_windows sample_windows_host (WindowsArgs "arm64" "blas" None false None)) /\
  raises_only build_failure
    (build_apple sample_mac_host (AppleArgs "ios-sim-x64" true None)).
Proof.
  split; [|split].
  - apply (entry_points_failures sample_failing_host); by intros preset e [=].
  - apply (entry_points_failures sample_windows_host); [by intros preset e [=]|].
    apply list_elem_of_In. right. by left.
  - apply (entry_points_failures sample_mac_host); [by intros preset e [=]|].
    apply list_elem_of_In. do 6 right. by left.
Defined.

(** Off the architectures the command line admits, the windows build can
    end with a missing key: the vcpkg triplet of [x86]. *)
Example windows_unknown_arch_key_error :
  (build_windows sample_vcpkg_host (WindowsArgs "x86" "blas" None false None)
     (World sample_vcpkg_tree [])).1 = Raise (KeyError "x86").
Proof. vm_compute. reflexivity. Qed.

(** ** Toolchain discovery *)

(** X10: [find_file_with_suffix] returns the first entry of the traversal
    that is a regular file, ends in the suffix and holds the wanted
    substring, and [None] exactly when the traversal has no such entry. *)
Theorem find_file_with_suffix_first fs walk suffix contains :
  match Locator.find_file_with_suffix fs walk suffix contains with
  | Some p =>
      exists before after,
        walk = before ++ p :: after /\
        suffix_match fs suffix contains p /\
        Forall (fun q => ~ suffix_match fs suffix contains q) before
  | None => Forall (fun q => ~ suffix_match fs suffix contains q) walk
  end.
Proof.
  induction walk as [|p rest IH]; [by constructor|].
  cbn [Locator.find_file_with_suffix].
  assert (~ suffix_match fs suffix contains p ->
          match Locator.find_file_with_suffix fs rest suffix contains with
          | Some p0 =>
              exists before after,
                p :: rest = before ++ p0 :: after /\
                suffix_match fs suffix contains p0 /\
                Forall (fun q => ~ suffix_match fs suffix contains q) before
          | None => Forall (fun q => ~ suffix_match fs suffix contains q) (p :: rest)
          end) as Hskip.
  { intros Hp. destruct (Locator.find_file_with_suffix fs rest suffix contains) as [p0|].
    - destruct IH as (before & after & -> & Hm & Hb).
      exists (p :: before), after. split; [done|]. split; [done | by constructor].
    - by constructor. }
  destruct (is_file fs p) eqn:Hf; cbn [negb];
    [|apply Hskip; intros (? & _); congruence].
  destruct (Str.endswith (path_str p) suffix) eqn:He; cbn [negb];
    [|apply Hskip; intros (_ & ? & _); congruence].
  destruct (truthy contains) eqn:Ht; cbn [andb].
  - destruct (Str.contains (path_str p) (default "" contains)) eqn:Hc; cbn [negb].
    + exists [], rest. split; [done|]. split; [done | constructor].
    + apply Hskip. intros (_ & _ & Hm). specialize (Hm Ht). congruence.
  - exists [], rest. split; [done|]. split; [|constructor].
    split; [done|]. split; [done|]. congruence.
Qed.

Lemma elem_of_iterdir (fs : fsys) p q :
  q ∈ Locator.iterdir fs p <-> parent q = p /\ q <> [] /\ is_Some (fs !! q).
Proof.
  unfold Locator.iterdir. rewrite list_elem_of_filter, list_elem_of_fmap. split.
  - intros [[Hp Hne] [[q' x] [-> Hx%elem_of_map_to_list]]]. naive_solver.
  - intros (Hp & Hne & [x Hx]). split; [done|].
    exists (q, x). split; [done | by apply elem_of_map_to_list].
Qed.

Lemma sorted_snoc_max {A} (R : relation A) (l : list A) x :
  StronglySorted R (l ++ [x]) -> forall y, y ∈ l -> R y x.
Proof.
  induction l as [|a l IH]; intros Hs y Hy; [by apply elem_of_nil in Hy|].
  cbn in Hs. apply StronglySorted_inv in Hs as [Hs Ha].
  apply elem_of_cons in Hy as [-> | Hy]; [|by apply IH].
  rewrite Forall_app, Forall_singleton in Ha. apply Ha.
Qed.

Lemma ndk_in_sdk_roots_spec fs roots newest :
  Locator.ndk_in_sdk_roots fs roots = Some newest ->
  exists root,
    root ∈ roots /\ parent newest = root ++ ["ndk"] /\ is_dir fs newest = true /\
    forall q, parent q = root ++ ["ndk"] -> is_dir fs q = true -> path_le q newest.
Proof.
  induction roots as [|root rest IH]; [done|].
  cbn [Locator.ndk_in_sdk_roots]. cbv zeta.
  assert (Locator.ndk_in_sdk_roots fs rest = Some newest ->
          exists root0,
            root0 ∈ root :: rest /\ parent newest = root0 ++ ["ndk"] /\
            is_dir fs newest = true /\
            forall q, parent q = root0 ++ ["ndk"] -> is_dir fs q = true ->
                      path_le q newest) as Hrest.
  { intros (root0 & Hin & Hrest)%IH. exists root0. split; [by right | done]. }
  destruct (is_dir fs (root ++ ["ndk"])); [|done].
  set (versions := merge_sort path_le _).
  destruct (reverse versions) as [|v vs] eqn:Hrev; [done|].
  intros [= ->]. exists root. split; [by left|].
  assert (versions = reverse vs ++ [newest]) as Hv
    by (by rewrite <- (reverse_involutive versions), Hrev, reverse_cons).
  assert (forall q, q ∈ versions <->
                    parent q = root ++ ["ndk"] /\ q <> [] /\ is_dir fs q = true) as Hin.
  { intros q. unfold versions. rewrite merge_sort_Permutation.
    rewrite list_elem_of_filter, elem_of_iterdir. split.
    - by intros [Hd (Hp & Hne & _)].
    - intros (Hp & Hne & Hd). repeat (split; [done|]).
      unfold is_dir in Hd. destruct (fs !! q); [by eexists | done]. }
  assert (newest ∈ versions) as Hnew
    by (rewrite Hv, elem_of_app, list_elem_of_singleton; by right).
  apply Hin in Hnew as (Hp & _ & Hd). split; [done|]. split; [done|].
  intros q Hq Hqd.
  assert (q ∈ versions) as Hqv.
  { apply Hin. split; [done|]. split; [|done]. intros ->. by destruct root. }
  pose proof (StronglySorted_merge_sort path_le
                (filter (fun p => is_dir fs p = true)
                        (Locator.iterdir fs (root ++ ["ndk"])))) as Hs.
  fold versions in Hs. rewrite Hv in Hs, Hqv.
  apply elem_of_app in Hqv as [Hqv | ->%list_elem_of_singleton];
    [by eapply sorted_snoc_max | apply path_le_refl].
Qed.

Lemma env_value_delete environ key key' :
  key <> key' ->
  Locator.env_value (delete key environ) key' = Locator.env_value environ key'.
Proof. intros Hk. unfold Locator.env_value. by rewrite lookup_delete_ne. Qed.

(** X11: [detect_android_ndk].  [ANDROID_NDK_HOME] wins when it names an
    existing path, and is passed over silently when it does not; a result
    exists on disk; and a version directory found below an SDK root is the
    last in path order of the directories of that [ndk] directory. *)
Theorem detect_android_ndk_spec environ Path fs :
  (forall v, Locator.env_value environ "ANDROID_NDK_HOME" = Some v ->
             Locator.detect_android_ndk environ Path fs =
               if exists_ fs (Path v) then Some (Path v)
               else Locator.detect_android_ndk (delete "ANDROID_NDK_HOME" environ) Path fs) /\
  (forall p, Locator.detect_android_ndk environ Path fs = Some p ->
     exists_ fs p = true /\
     ((exists v, Locator.env_value environ "ANDROID_NDK_HOME" = Some v /\ p = Path v) \/
      (exists root,
         root ∈ Locator.android_sdk_roots environ Path /\
         parent p = root ++ ["ndk"] /\ is_dir fs p = true /\
         forall q, parent q = root ++ ["ndk"] -> is_dir fs q = true -> path_le q p) \/
      p = Path "/usr/local/lib/android/sdk/ndk-bundle" /\ is_dir fs p = true)).
Proof.
  assert (forall p, is_dir fs p = true -> exists_ fs p = true) as Hde.
  { intros p. unfold is_dir, exists_. by destruct (fs !! p) as [[]|]. }
  split.
  - intros v Hv. unfold Locator.detect_android_ndk at 1. rewrite Hv.
    destruct (exists_ fs (Path v)); [done|].
    unfold Locator.detect_android_ndk.
    assert (Locator.env_value (delete "ANDROID_NDK_HOME" environ) "ANDROID_NDK_HOME" = None)
      as -> by (unfold Locator.env_value; by rewrite lookup_delete_eq).
    unfold Locator.android_sdk_roots. cbn [omap list_omap].
    by rewrite !env_value_delete by done.
  - intros p. unfold Locator.detect_android_ndk.
    destruct (Locator.env_value environ "ANDROID_NDK_HOME") as [v|] eqn:Hv.
    + destruct (exists_ fs (Path v)) eqn:He.
      * intros [= <-]. split; [done|]. left. eauto.
      * destruct (Locator.ndk_in_sdk_roots fs _) as [newest|] eqn:Hn.
        -- intros [= <-]. apply ndk_in_sdk_roots_spec in Hn as (root & ? & ? & ? & ?).
           split; [by apply Hde|]. right; left. by exists root.
        -- destruct (is_dir fs _) eqn:Hl; [|done]. intros [= <-].
           split; [by apply Hde|]. right; right. done.
    + destruct (Locator.ndk_in_sdk_roots fs _) as [newest|] eqn:Hn.
      * intros [= <-]. apply ndk_in_sdk_roots_spec in Hn as (root & ? & ? & ? & ?).
        split; [by apply Hde|]. right; left. by exists root.
      * destruct (is_dir fs _) eqn:Hl; [|done]. intros [= <-].
        split; [by apply Hde|]. right; right. done.
Qed.

(** The order is that of the names as strings: version 9 comes after
    version 26. *)
Example ndk_newest_is_by_name :
  Locator.detect_android_ndk {[ "ANDROID_HOME" := "/sdk" ]} sample_Path sample_old_ndk_tree =
    Some ["sdk"; "ndk"; "9.0.7"].
Proof. vm_compute. reflexivity. Qed.

Lemma first_dir_spec fs candidates :
  match Locator.first_dir fs candidates with
  | Some root =>
      exists before after,
        candidates = before ++ root :: after /\ is_dir fs root = true /\
        Forall (fun p => is_dir fs p = false) before
  | None => Forall (fun p => is_dir fs p = false) candidates
  end.
Proof.
  induction candidates as [|root rest IH]; [by constructor|].
  cbn [Locator.first_dir]. destruct (is_dir fs root) eqn:Hd.
  - exists [], rest. split; [done|]. split; [done | constructor].
  - destruct (Locator.first_dir fs rest) as [p|]; [|by constructor].
    destruct IH as (before & after & -> & Hp & Hb).
    exists (root :: before), after. split; [done|]. split; [done | by constructor].
Qed.

(** X12: [detect_vcpkg_root] returns a directory; [VCPKG_ROOT] wins when it
    names one; and there is no result only when none of the two variables
    and none of the two default places gives a directory. *)
Theorem detect_vcpkg_root_spec environ Path fs :
  (forall root, Locator.detect_vcpkg_root environ Path fs = Some root ->
                is_dir fs root = true) /\
  (forall v, Locator.env_value environ "VCPKG_ROOT" = Some v ->
             is_dir fs (Path v) = true ->
             Locator.detect_vcpkg_root environ Path fs = Some (Path v)) /\
  (Locator.detect_vcpkg_root environ Path fs = None ->
   is_dir fs (Path "C:/vcpkg") = false /\ is_dir fs (Path "C:/tools/vcpkg") = false /\
   forall key v, key ∈ ["VCPKG_ROOT"; "VCPKG_INSTALLATION_ROOT"] ->
                 Locator.env_value environ key = Some v -> is_dir fs (Path v) = false).
Proof.
  unfold Locator.detect_vcpkg_root. split; [|split].
  - intros root.
    pose proof (first_dir_spec fs (omap (fun key => Path <$> Locator.env_value environ key)
                                        ["VCPKG_ROOT"; "VCPKG_INSTALLATION_ROOT"])) as H1.
    destruct (Locator.first_dir fs (omap _ _)) as [p|].
    + destruct H1 as (_ & _ & _ & Hp & _). by intros [= <-].
    + pose proof (first_dir_spec fs [Path "C:/vcpkg"; Path "C:/tools/vcpkg"]) as H2.
      destruct (Locator.first_dir fs [_; _]) as [p|]; [|done].
      destruct H2 as (_ & _ & _ & Hp & _). by intros [= <-].
  - intros v Hv Hd. cbn [omap list_omap]. rewrite Hv. cbn [fmap option_fmap option_map].
    cbn [Locator.first_dir]. by rewrite Hd.
  - pose proof (first_dir_spec fs (omap (fun key => Path <$> Locator.env_value environ key)
                                        ["VCPKG_ROOT"; "VCPKG_INSTALLATION_ROOT"])) as H1.
    destruct (Locator.first_dir fs (omap _ _)) as [p|]; [done|].
    pose proof (first_dir_spec fs [Path "C:/vcpkg"; Path "C:/tools/vcpkg"]) as H2.
    destruct (Locator.first_dir fs [_; _]) as [p|]; [done|]. intros _.
    apply Forall_cons in H2 as [Ha H2]. apply Forall_cons in H2 as [Hb _].
    split; [done|]. split; [done|]. intros key v Hkey Hv.
    rewrite Forall_forall in H1. apply H1.
    apply list_elem_of_omap. exists key. split; [done|].
    by rewrite Hv.
Qed.

(** X13: [infer_vulkan_sdk].  An explicit hint wins when it names an existing
    path and is passed over silently when it does not; and of a result
    either the path itself, its [Include/vulkan/vulkan.h] or its [Lib]
    exists. *)
Theorem infer_vulkan_sdk_spec environ Path resolve which fs :
  (forall hint,
     truthy (Some hint) = true ->
     Locator.infer_vulkan_sdk environ Path resolve which fs (Some hint) =
       if exists_ fs (Path hint) then Some (Path hint)
       else Locator.infer_vulkan_sdk environ Path resolve which fs None) /\
  (forall path_hint sdk,
     Locator.infer_vulkan_sdk environ Path resolve which fs path_hint = Some sdk ->
     exists_ fs sdk = true \/
     exists_ fs (sdk ++ ["Include"; "vulkan"; "vulkan.h"]) = true \/
     exists_ fs (sdk ++ ["Lib"]) = true).
Proof.
  split.
  - intros hint Ht. unfold Locator.infer_vulkan_sdk. rewrite Ht.
    change (default "" (Some hint)) with hint.
    by destruct (exists_ fs (Path hint)).
  - intros path_hint sdk. unfold Locator.infer_vulkan_sdk.
    destruct (truthy path_hint); [destruct (exists_ fs (Path (default "" path_hint))) eqn:He|].
    1: { intros [= <-]. by left. }
    all: destruct (Locator.env_value environ "VULKAN_SDK") as [v|];
      [destruct (exists_ fs (Path v)) eqn:Hv; [intros [= <-]; by left|]|].
    all: destruct (truthy (if truthy (which "glslc") then _ else _)); [|done].
    all: cbn [Locator.sdk_above]; cbv zeta.
    all: repeat match goal with
                | |- context [if ?a || ?b then _ else _] =>
                    destruct a eqn:?; destruct b eqn:?; cbn [orb]
                end; try done; intros [= <-]; auto.
Qed.

(** ** The presets file *)

Lemma resolve_in_skip REPO_ROOT Path before rest preset :
  Forall (fun cfg => Presets.cp_name cfg <> Some preset) before ->
  Presets.resolve_in REPO_ROOT Path (before ++ rest) preset =
  Presets.resolve_in REPO_ROOT Path rest preset.
Proof.
  induction 1 as [|cfg before Hcfg _ IH]; [done|].
  cbn [app Presets.resolve_in]. by rewrite bool_decide_false.
Qed.

(** Text free of [$] is passed over by the replacement of a [${...}]
    placeholder. *)
Lemma replace_placeholder_free a old new t :
  Str.contains a "$" = false ->
  Str.replace (a +:+ t) (String "$" old) new = a +:+ Str.replace t (String "$" old) new.
Proof.
  induction a as [|c a IH]; intros Ha; [by rewrite !StrFacts.app_nil_l|].
  cbn [Str.contains Str.startswith] in Ha.
  apply orb_false_elim in Ha as [Hc Ha]. rewrite andb_true_r in Hc.
  rewrite !StrFacts.app_cons, StrFacts.replace_miss, IH; [done.. |].
  cbn [Str.startswith]. by rewrite Hc.
Qed.

(** X14: [resolve_build_dir_for_preset].  The first entry that bears the
    preset's name decides, later ones are not looked at; without such an
    entry, or when it gives no [binaryDir], the directory is
    [build/<preset>] below the repository; and CMake's usual
    [${sourceDir}/build/${presetName}] stands for that same place, for a
    repository path free of [$]. *)
Theorem resolve_build_dir_for_preset_spec REPO_ROOT Path preset :
  (forall cfgs,
     Forall (fun cfg => Presets.cp_name cfg <> Some preset) cfgs ->
     Presets.resolve_build_dir_for_preset REPO_ROOT Path (Presets.Parsed cfgs) preset =
       Ok (REPO_ROOT ++ ["build"; preset])) /\
  (forall before cfg after,
     Forall (fun cfg => Presets.cp_name cfg <> Some preset) before ->
     Presets.cp_name cfg = Some preset ->
     Presets.resolve_build_dir_for_preset REPO_ROOT Path
       (Presets.Parsed (before ++ cfg :: after)) preset =
     Presets.resolve_build_dir_for_preset REPO_ROOT Path (Presets.Parsed [cfg]) preset /\
     (truthy (Presets.cp_binaryDir cfg) = false ->
      Presets.resolve_build_dir_for_preset REPO_ROOT Path (Presets.Parsed [cfg]) preset =
        Ok (REPO_ROOT ++ ["build"; preset])) /\
     (Presets.cp_binaryDir cfg = Some "${sourceDir}/build/${presetName}" ->
      Str.contains (path_str REPO_ROOT) "$" = false ->
      Presets.resolve_build_dir_for_preset REPO_ROOT Path (Presets.Parsed [cfg]) preset =
        Ok (Path (path_str REPO_ROOT +:+ "/build/" +:+ preset)))).
Proof.
  unfold Presets.resolve_build_dir_for_preset, Presets.load_cmake_presets.
  split.
  - intros cfgs Hcfgs. rewrite <- (app_nil_r cfgs), resolve_in_skip by done.
    cbn [Presets.resolve_in]. unfold Presets.BUILD_ROOT. by rewrite <- app_assoc.
  - intros before cfg after Hbefore Hname. split; [|split].
    + rewrite resolve_in_skip by done. cbn [Presets.resolve_in].
      by rewrite bool_decide_true.
    + intros Hdir. cbn [Presets.resolve_in].
      rewrite bool_decide_true, Hdir by done. cbn [negb].
      unfold Presets.BUILD_ROOT. by rewrite <- app_assoc.
    + intros Hdir Hroot. cbn [Presets.resolve_in].
      rewrite bool_decide_true, Hdir by done. cbn [negb truthy]. cbv zeta.
      do 2 f_equal.
      change (default "" (Some "${sourceDir}/build/${presetName}"))
        with ("${sourceDir}" +:+ "/build/${presetName}").
      rewrite StrFacts.replace_hit by done.
      rewrite (StrFacts.replace_absent "${sourceDir}" (path_str REPO_ROOT) ltac:(done)
                 "/build/${presetName}") by done.
      rewrite replace_placeholder_free by done.
      change "/build/${presetName}" with ("/build/" +:+ ("${presetName}" +:+ "")).
      rewrite (replace_placeholder_free "/build/") by done.
      rewrite StrFacts.replace_hit, StrFacts.replace_nil by done.
      by rewrite StrFacts.app_nil_r.
Qed.

Lemma resolve_build_dir_for_preset_spec_witness :
  Presets.resolve_build_dir_for_preset ["repo"] sample_Path sample_presets "linux-x64-full" =
    Ok ["repo"; "build"; "linux-x64-full"] /\
  Presets.resolve_build_dir_for_preset ["repo"] sample_Path sample_presets "windows-x64-full" =
    Ok ["repo"; "build"; "windows-x64-full"].
Proof.
  destruct (resolve_build_dir_for_preset_spec ["repo"] sample_Path "linux-x64-full")
    as [_ Hfirst].
  destruct (Hfirst [Presets.ConfigurePreset (Some "base") None]
              (Presets.ConfigurePreset (Some "linux-x64-full")
                 (Some "${sourceDir}/build/${presetName}"))
              [Presets.ConfigurePreset (Some "linux-x64-full") (Some "/elsewhere")])
    as (Heq & _ & Htemplate); [by repeat constructor | reflexivity |].
  split.
  - unfold sample_presets. cbn [app] in Heq. rewrite Heq, Htemplate by reflexivity.
    reflexivity.
  - apply (resolve_build_dir_for_preset_spec ["repo"] sample_Path "windows-x64-full").
    by repeat constructor.
Defined.

(** ** The key of an ABI in environment variables *)

Lemma replace_dash_cons c s :
  Str.replace (String c s) "-" "_" =
  String (if Ascii.eqb "-" c then "_"%char else c) (Str.replace s "-" "_").
Proof.
  unfold Str.replace. cbn [Str.replace_from Str.startswith String.length Nat.sub].
  rewrite andb_true_r. destruct (Ascii.eqb "-" c); [|done].
  by rewrite StrFacts.app_cons, StrFacts.app_nil_l.
Qed.

Lemma abi_env_key_cons c abi :
  Locator.abi_env_key (String c abi) =
  String (if Ascii.eqb "-" (Locator.upper_ascii c) then "_"%char else Locator.upper_ascii c)
         (Locator.abi_env_key abi).
Proof. unfold Locator.abi_env_key. cbn [Locator.upper]. apply replace_dash_cons. Qed.

Lemma abi_env_key_char c :
  let k := if Ascii.eqb "-" (Locator.upper_ascii c) then "_"%char else Locator.upper_ascii c in
  (if Ascii.eqb "-" (Locator.upper_ascii k) then "_"%char else Locator.upper_ascii k) = k.
Proof. by destruct c as [[] [] [] [] [] [] [] []]. Qed.


(** ** Apple targets and their aliases *)

(** X16: every Apple target stands for a normalized target that is itself in
    the table with the same output directory, and building the one is
    building the other: [macos-x64] builds as [macos-x86_64]. *)
Theorem apple_aliases_build_alike h target entry clean jobs :
  apple_target APPLE_TARGETS target = Ok entry ->
  apple_target APPLE_TARGETS entry.1 = Ok entry /\
  build_apple h (AppleArgs target clean jobs) = build_apple h (AppleArgs entry.1 clean jobs).
Proof.
  intros Htarget.
  assert (apple_target APPLE_TARGETS entry.1 = Ok entry) as Hnorm.
  { revert Htarget. unfold APPLE_TARGETS. cbn [apple_target].
    repeat match goal with
           | |- context [String.eqb ?k target] => destruct (String.eqb k target)
           end; by intros [= <-]. }
  split; [done|]. unfold build_apple. cbn [aa_target aa_clean aa_jobs].
  by rewrite Htarget, Hnorm.
Qed.

Lemma apple_aliases_build_alike_witness :
  build_apple sample_mac_host (AppleArgs "macos-x64" true None) =
  build_apple sample_mac_host (AppleArgs "macos-x86_64" true None).
Proof.
  apply (apple_aliases_build_alike sample_mac_host "macos-x64"
           ("macos-x86_64", ["macos"; "x86_64"]) true None).
  reflexivity.
Defined.

(** ** Backends the resolvers do not know *)

(** X17: the resolvers do not check the backend's name: for a name that is
    none of the platform's backends they return the configuration with
    every backend switched off, the CPU-kernel switch following the
    architecture as ever, and raise nothing. *)
Theorem unknown_backend_is_cpu_only pl arch backend :
  backend ∉ backends pl ->
  exists cv,
    backend_cache_vars pl arch backend = Ok cv /\
    keys cv = capability_keys pl /\
    forall key, key ∈ capability_keys pl ->
      dict_get cv key =
        Some (if String.eqb key "GGML_CPU_KLEIDIAI" then on_off (is_arm64 pl arch) else "OFF").
Proof.
  intros Hb.
  assert (forall b, b ∈ backends pl -> String.eqb backend b = false) as Hne.
  { intros b Hin. apply String.eqb_neq. by intros <-. }
  destruct pl; cbn [backend_cache_vars backends capability_keys is_arm64] in *;
    unfold linux_backend_cache_vars, android_backend_cache_vars,
      windows_backend_cache_vars, in_tuple, LINUX_BACKENDS, ANDROID_BACKENDS,
      WINDOWS_BACKENDS in *;
    cbn [existsb];
    rewrite ?Hne by (apply list_elem_of_In; cbn; tauto);
    cbn [orb andb]; eexists; (split; [reflexivity|]); (split; [reflexivity|]);
    intros key Hkey; apply list_elem_of_In in Hkey; cbn in Hkey;
    repeat (destruct Hkey as [<- | Hkey]; [by destruct (String.eqb arch _)|]); done.
Qed.

Lemma unknown_backend_is_cpu_only_witness :
  linux_backend_cache_vars "x64" "metal" =
    Ok [ ("GGML_VULKAN", "OFF"); ("GGML_OPENCL", "OFF"); ("GGML_CUDA", "OFF");
         ("GGML_BLAS", "OFF"); ("GGML_ZENDNN", "OFF"); ("GGML_CPU_KLEIDIAI", "OFF") ].
Proof.
  destruct (unknown_backend_is_cpu_only Linux "x64" "metal") as (cv & Hcv & _).
  - intros Hin. apply list_elem_of_In in Hin. cbn in Hin.
    repeat (destruct Hin as [Hin | Hin]; [discriminate Hin|]). exact Hin.
  - reflexivity.
Defined.
